(** * quilt: the package core ([compiler/quilt/tools/package.py])

    A shallow embedding of [Package]: the node tree held in [_contents], the
    path accessor [__getitem__], the write path ([_add_to_contents],
    [save_group], [save_file], [save_package_tree]), the snapshot protocol
    ([save_contents], [_load_contents], [get_hash]) and the read path
    ([_check_hashes], [get_obj]).

    Python dictionaries are association lists in insertion order: the order
    is what two different build sequences leave behind, and what the sorted
    serialisation has to forget.  Directories of the package and of the
    object store are finite maps from entry names to file contents. *)

From Stdlib Require Import Ascii String.
From stdpp Require Import base option list strings gmap sorting.

Open Scope string_scope.
Set Warnings "-register-all".

(** ** Exceptions and results *)

Inductive exn : Type :=
| TypeError (msg : string)
| KeyError (traversed part : string)
| IndexError
| AttributeError
| ValueError
| AssertionError (msg : string)
| IOError
| KeyboardInterrupt
| PackageException (msg : string).

(** The class a caller names in an [except] clause. *)
Inductive exn_class : Type :=
| CTypeError | CKeyError | CIndexError | CAttributeError | CValueError
| CAssertionError | CIOError | CKeyboardInterrupt | CPackageException.

Definition class_of (e : exn) : exn_class :=
  match e with
  | TypeError _ => CTypeError
  | KeyError _ _ => CKeyError
  | IndexError => CIndexError
  | AttributeError => CAttributeError
  | ValueError => CValueError
  | AssertionError _ => CAssertionError
  | IOError => CIOError
  | KeyboardInterrupt => CKeyboardInterrupt
  | PackageException _ => CPackageException
  end.

Inductive result (A : Type) : Type :=
| Ok (a : A)
| Raise (e : exn).
Arguments Ok {A} a.
Arguments Raise {A} e.

(** ** Python strings *)

Definition slash : ascii := "/"%char.
Definition dot : ascii := "."%char.

(** [s.lstrip('/')] *)
Fixpoint lstrip_slash (s : string) : string :=
  match s with
  | String c s' => if Ascii.eqb c slash then lstrip_slash s' else s
  | EmptyString => s
  end.

(** [s.replace('/', '.')] *)
Fixpoint replace_slash_dot (s : string) : string :=
  match s with
  | String c s' =>
      String (if Ascii.eqb c slash then dot else c) (replace_slash_dot s')
  | EmptyString => EmptyString
  end.

(** [s.split(sep)] for a one-character separator: never the empty list,
    [''.split(sep) == ['']]. *)
Fixpoint split_on (sep : ascii) (s : string) : list string :=
  match s with
  | EmptyString => [EmptyString]
  | String c s' =>
      if Ascii.eqb c sep then EmptyString :: split_on sep s'
      else match split_on sep s' with
           | x :: r => String c x :: r
           | [] => [String c EmptyString]
           end
  end.

(** [sep.join(l)] *)
Fixpoint join_with (sep : string) (l : list string) : string :=
  match l with
  | [] => ""
  | [x] => x
  | x :: r => x ++ sep ++ join_with sep r
  end.

(** [leaf = ipath.pop()]: the last element, and the list without it. *)
Definition pop_last (l : list string) : list string * string :=
  (removelast l, List.last l "").

(** ** Python dictionaries, in insertion order *)

Section dict.
Context {V : Type}.

(** [d[k]] / [d.get(k)] *)
Fixpoint dict_get (k : string) (d : list (string * V)) : option V :=
  match d with
  | [] => None
  | (k', v) :: d' => if String.eqb k k' then Some v else dict_get k d'
  end.

(** [d[k] = v]: a present key keeps its place, a new key goes last. *)
Fixpoint dict_set (k : string) (v : V) (d : list (string * V))
  : list (string * V) :=
  match d with
  | [] => [(k, v)]
  | (k', v') :: d' =>
      if String.eqb k k' then (k, v) :: d' else (k', v') :: dict_set k v d'
  end.

(** [d.pop(k, None)]: the value (if any) and the dictionary without it. *)
Fixpoint dict_remove (k : string) (d : list (string * V))
  : list (string * V) :=
  match d with
  | [] => []
  | (k', v) :: d' =>
      if String.eqb k k' then d' else (k', v) :: dict_remove k d'
  end.

Definition dict_keys (d : list (string * V)) : list string := map fst d.
End dict.

(** ** Nodes ([core.GroupNode], [core.TableNode], [core.FileNode])

    The classes live in [core.py]; their fields are the ones [package.py]
    reads and passes to the constructors: [children] for a group,
    [hashes], [format], [metadata] for a table, [hashes], [metadata] for a
    file.  Metadata values are strings or [None]. *)

Definition Metadata : Type := list (string * option string).

Inductive Node : Type :=
| GroupNode (children : list (string * Node))
| TableNode (hashes : list string) (format : string) (metadata : Metadata)
| FileNode (hashes : list string) (metadata : Metadata).

Inductive TargetType : Type := PANDAS | FILE | GROUP.
Inductive PackageFormat : Type := HDF5 | PARQUET.
Inductive ParquetLib : Type := SPARK | ARROW.

(** The induction principle that reaches the children of a group. *)
Section Node_ind'.
Variable P : Node → Prop.
Hypothesis Hg : ∀ cs, Forall (λ kv, P kv.2) cs → P (GroupNode cs).
Hypothesis Ht : ∀ hs f m, P (TableNode hs f m).
Hypothesis Hf : ∀ hs m, P (FileNode hs m).

Fixpoint Node_ind' (n : Node) : P n :=
  match n with
  | GroupNode cs =>
      Hg cs ((fix go (l : list (string * Node)) : Forall (λ kv, P kv.2) l :=
                match l with
                | [] => @List.Forall_nil _ _
                | kv :: l' => @List.Forall_cons _ _ kv l' (Node_ind' kv.2) (go l')
                end) cs)
  | TableNode hs f m => Ht hs f m
  | FileNode hs m => Hf hs m
  end.
End Node_ind'.

(** ** Sorting a dictionary by key ([sorted(d.items())], [sort_keys=True]) *)

Definition key_le {V : Type} : relation (string * V) :=
  λ a b, String.le a.1 b.1.

#[global] Instance key_le_dec {V : Type} (a b : string * V) :
  Decision (key_le a b).
Proof. unfold key_le. apply _. Defined.

Definition sort_keys {V : Type} (d : list (string * V)) : list (string * V) :=
  merge_sort key_le d.

(** ** JSON documents and the values [json.load] builds *)

Inductive json : Type :=
| JNull
| JString (s : string)
| JArray (l : list json)
| JObject (l : list (string * json)).

Inductive pyval : Type :=
| PNone
| PStr (s : string)
| PList (l : list pyval)
| PDict (d : list (string * pyval))
| PNode (n : Node).

(** What the content hasher feeds to its digest. *)
Inductive token : Type :=
| TInt (n : nat)
| TStr (s : string)
| TNone.

(** ** The world outside the interpreter

    [files] are ordinary files by path (what [save_file] reads).  The store
    is [self._store]: [objects] holds the file at [object_path(h)] under
    [h], [tmp_objects] the file at [temporary_object_path(name)] under
    [name].  [contents_dir] and [tags_dir] are the directories
    [<path>/contents] and [<path>/tags] ([None]: the directory does not
    exist), with [os.path.join(self._path, DIR, name)] the entry [name] of
    the directory; a contents file is held as the JSON document its text
    spells.  An entry that was opened for writing and not yet written is
    [None] in [contents_dir] and the empty string in [tags_dir].
    [store_writable = false] makes writes into the store fail.
    [interrupt_after = Some n] interrupts the build at its [n+1]-th
    file-system effect.  [codec_calls] records every request handed to a
    table codec.

    A hash or a tag name is looked up as the name of an entry.  A string
    with a slash in it, or [".."], is a path to [os.path.join] and can
    reach a file that is no entry of the directory; such strings are
    outside what the two maps describe. *)

Record World : Type := mkWorld {
  files : gmap string string;
  objects : gmap string string;
  tmp_objects : gmap string string;
  store_writable : bool;
  contents_dir : option (gmap string (option json));
  tags_dir : option (gmap string string);
  interrupt_after : option nat;
  codec_calls : list (PackageFormat * list string)
}.

Definition set_objects (o : gmap string string) (w : World) : World :=
  mkWorld (files w) o (tmp_objects w) (store_writable w) (contents_dir w)
    (tags_dir w) (interrupt_after w) (codec_calls w).

Definition set_tmp_objects (t : gmap string string) (w : World) : World :=
  mkWorld (files w) (objects w) t (store_writable w) (contents_dir w)
    (tags_dir w) (interrupt_after w) (codec_calls w).

Definition set_contents_dir (d : option (gmap string (option json)))
    (w : World) : World :=
  mkWorld (files w) (objects w) (tmp_objects w) (store_writable w) d
    (tags_dir w) (interrupt_after w) (codec_calls w).

Definition set_tags_dir (d : option (gmap string string)) (w : World)
  : World :=
  mkWorld (files w) (objects w) (tmp_objects w) (store_writable w)
    (contents_dir w) d (interrupt_after w) (codec_calls w).

Definition set_interrupt_after (n : option nat) (w : World) : World :=
  mkWorld (files w) (objects w) (tmp_objects w) (store_writable w)
    (contents_dir w) (tags_dir w) n (codec_calls w).

Definition set_codec_calls (l : list (PackageFormat * list string))
    (w : World) : World :=
  mkWorld (files w) (objects w) (tmp_objects w) (store_writable w)
    (contents_dir w) (tags_dir w) (interrupt_after w) l.

Record Package : Type := mkPackage {
  _user : string;
  _package : string;
  _contents : Node
}.

Record State : Type := mkState {
  self : Package;
  world : World
}.

Definition with_contents (c : Node) (s : State) : State :=
  mkState (mkPackage (_user (self s)) (_package (self s)) c) (world s).

Definition with_world (w : World) (s : State) : State := mkState (self s) w.

(** ** The collaborators of [package.py]

    Modules the file imports and does not define: [util.is_nodename],
    [hashing.digest_file], the enumerations of [const] and [core], the
    store's [object_path], the table codecs, and Python's own [repr].
    Of [core.encode_node] and [core.decode_node], which the spec describes
    without naming everything, two things are left open: [type_key], the
    key under which a node carries its type discriminator, and
    [decode_other], what the decoder does with an object that has an entry
    under that key and is not an encoded node. *)

Record Env : Type := mkEnv {
  DataFrame : Type;
  is_nodename : string → bool;
  repr : string → string;
  digest : string → string;
  object_path : string → string;
  TargetType_of : string → option TargetType;
  PackageFormat_of : string → option PackageFormat;
  PackageFormat_value : PackageFormat → string;
  get_parquet_lib : option ParquetLib;
  read_hdf5 : string → DataFrame;
  read_parquet_arrow : list string → DataFrame + string;
  read_parquet_spark : list string → DataFrame;
  sha256_hexdigest : list token → string;
  type_key : string;
  decode_other : list (string * pyval) → result pyval
}.

(** ** The state-and-exception monad of the methods *)

Definition M (A : Type) : Type := State → State * result A.

#[global] Instance M_ret : MRet M := λ A a s, (s, Ok a).

#[global] Instance M_bind : MBind M := λ A B f m s,
  match m s with
  | (s', Ok a) => f a s'
  | (s', Raise e) => (s', Raise e)
  end.

Definition raise {A : Type} (e : exn) : M A := λ s, (s, Raise e).

Definition lift {A : Type} (r : result A) : M A := λ s, (s, r).

Definition get_world : M World := λ s, (s, Ok (world s)).

Definition put_world (w : World) : M unit := λ s, (with_world w s, Ok tt).

(** [get_contents], [set_contents] *)
Definition get_contents : M Node := λ s, (s, Ok (_contents (self s))).

Definition set_contents (contents : Node) : M unit :=
  λ s, (with_contents contents s, Ok tt).

(** One file-system effect: the place where an interruption can fall. *)
Definition effect : M unit := λ s,
  let w := world s in
  match interrupt_after w with
  | None => (s, Ok tt)
  | Some (S n) => (with_world (set_interrupt_after (Some n) w) s, Ok tt)
  | Some O => (s, Raise KeyboardInterrupt)
  end.

(** ** [pathlib.PurePosixPath] *)

Fixpoint leading_slashes (s : string) : nat :=
  match s with
  | String c s' => if Ascii.eqb c slash then S (leading_slashes s') else 0
  | EmptyString => 0
  end.

(** [PurePosixPath(item).anchor]: exactly two leading slashes are kept,
    any other number collapses to one. *)
Definition posix_anchor (item : string) : string :=
  match leading_slashes item with
  | 0 => ""
  | 2 => "//"
  | _ => "/"
  end.

Definition is_segment (x : string) : bool :=
  negb (String.eqb x "") && negb (String.eqb x ".").

(** [PurePosixPath(item).parts]: the anchor, if any, then the segments that
    are neither empty nor ["."]. *)
Definition posix_parts (item : string) : list string :=
  let segments := List.filter is_segment (split_on slash item) in
  if String.eqb (posix_anchor item) "" then segments
  else posix_anchor item :: segments.

(** Character tests used to state what a name looks like. *)

Fixpoint no_char (ch : ascii) (s : string) : bool :=
  match s with
  | String c s' => negb (Ascii.eqb c ch) && no_char ch s'
  | EmptyString => true
  end.

Fixpoint only_slashes (s : string) : bool :=
  match s with
  | String c s' => Ascii.eqb c slash && only_slashes s'
  | EmptyString => true
  end.

(** A path segment that [PurePosixPath] keeps as it is. *)
Definition plain_segment (x : string) : bool :=
  is_segment x && no_char slash x.

(** ** The methods of [Package] *)

Section Package.
Variable E : Env.

Definition DF_NAME : string := "df".
Definition LATEST : string := "latest".

(** *** [__getitem__] *)

(** The [for part in path.parts] loop, with the two [except] clauses
    applied where [node.children[part]] raises: [AttributeError] when
    [node] is no group, [KeyError] when the group lacks [part]. *)
Fixpoint walk (parts : list string) (node : Node) (count : nat)
    (rest : list string) : result Node :=
  match rest with
  | [] => Ok node
  | part :: rest' =>
      if negb (is_nodename E part)
      then Raise (TypeError ("Invalid node name: " ++ repr E part))
      else
        let traversed := join_with "/" (take count parts) in
        match node with
        | GroupNode children =>
            match dict_get part children with
            | Some child => walk parts child (S count) rest'
            | None =>
                match parts !! count with
                | Some missing => Raise (KeyError traversed missing)
                | None => Raise IndexError
                end
            end
        | _ =>
            Raise (TypeError
                     ("Not a GroupNode: Node at " ++ repr E traversed))
        end
  end.

Definition __getitem__ (item : string) : M Node :=
  node ← get_contents;
  let anchor := posix_anchor item in
  let parts := posix_parts item in
  if String.eqb item ""
  then raise (TypeError
         "Invalid node reference: Blank node names not permitted.")
  else if negb (String.eqb anchor "")
  then raise (TypeError
         ("Invalid node reference: Absolute path.  Remove prefix "
            ++ repr E anchor))
  else lift (walk parts node 0 parts).

(** *** [__contains__] *)
Definition __contains__ (item : string) : M bool := λ s,
  match __getitem__ item s with
  | (s', Ok _) => (s', Ok true)
  | (s', Raise (KeyError _ _)) => (s', Ok false)
  | (s', Raise (TypeError _)) => (s', Ok false)
  | (s', Raise e) => (s', Raise e)
  end.

(** *** [_add_to_contents] and [save_package_tree]: descending with [ptr]

    [ptr] walks down the tree that [_contents] holds and the tree is
    updated in place, so a failure part of the way leaves the groups
    created so far.  [descend ipath leaf mk ptr] is the node [ptr] points
    at after the loop over [ipath], the evaluation of the new node [mk]
    and the assignment [ptr.children[leaf] = node], with what was raised.
    [ptr.children] on a table or a file raises [AttributeError].

    The tree is held as a value, each node at one place.  In Python a
    node object that sits at two places of the tree, or that the caller
    of [save_package_tree] keeps, is one object and changes at every
    place at once; here the places hold separate copies, so what is said
    of an insertion is said of trees without shared nodes. *)
Fixpoint descend (ipath : list string) (leaf : string) (mk : result Node)
    (ptr : Node) : Node * result unit :=
  match ipath with
  | [] =>
      match mk with
      | Raise e => (ptr, Raise e)
      | Ok node =>
          match ptr with
          | GroupNode children =>
              (GroupNode (dict_set leaf node children), Ok tt)
          | _ => (ptr, Raise AttributeError)
          end
      end
  | name :: ipath' =>
      match ptr with
      | GroupNode children =>
          (* ptr.children.setdefault(node, GroupNode(dict())) *)
          let child := default (GroupNode []) (dict_get name children) in
          let '(child', r) := descend ipath' leaf mk child in
          (GroupNode (dict_set name child' children), r)
      | _ => (ptr, Raise AttributeError)
      end
  end.

(** The [try] block of [_add_to_contents]: the node to insert. *)
Definition new_node (hashes : list string) (metadata : Metadata)
    (target : string) (fmt : option PackageFormat) : result Node :=
  match TargetType_of E target with
  | None => Raise (PackageException ("Unrecognized target " ++ target))
  | Some GROUP => Ok (GroupNode [])
  | Some PANDAS =>
      match fmt with
      | None => Raise (AssertionError "")
      | Some f => Ok (TableNode hashes (PackageFormat_value E f) metadata)
      end
  | Some FILE => Ok (FileNode hashes metadata)
  end.

(** [hashes] is [None] in the call of [save_group]; the [GROUP] branch
    does not read it, and [[]] stands for it there. *)
Definition _add_to_contents (fullname : string) (hashes : list string)
    (ext : string) (path : option string) (target : string)
    (fmt : option PackageFormat) : M unit :=
  contents ← get_contents;
  let '(ipath, leaf) := pop_last (split_on dot fullname) in
  let metadata :=
    [("q_ext", Some ext); ("q_path", path); ("q_target", Some target)] in
  let '(contents', r) :=
    descend ipath leaf (new_node hashes metadata target fmt) contents in
  set_contents contents';; lift r.

(** *** [save_package_tree] *)
Definition save_package_tree (name : string) (pkgnode : Node) : M unit :=
  contents ← get_contents;
  if negb (String.eqb name "") then
    let '(ipath, leaf) := pop_last (split_on slash name) in
    let '(contents', r) := descend ipath leaf (Ok pkgnode) contents in
    set_contents contents';; lift r
  else
    match contents with
    | GroupNode children =>
        match children with
        | _ :: _ =>
            raise (PackageException
              "Attempting to overwrite root node of a non-empty package.")
        | [] =>
            match pkgnode with
            | GroupNode pkgchildren => set_contents (GroupNode pkgchildren)
            | _ => raise AttributeError
            end
        end
    | _ => raise AttributeError
    end.

(** [name.lstrip('/').replace('/', '.')] *)
Definition build_name (name : string) : string :=
  replace_slash_dot (lstrip_slash name).

(** *** [save_cached_df] *)
Definition save_cached_df (hashes : list string) (name : string)
    (path : option string) (ext target : string)
    (fmt : option PackageFormat) : M unit :=
  let buildfile := build_name name in
  _add_to_contents buildfile hashes ext path target fmt.

(** *** The file system, as the methods use it *)

(** [digest_file(srcfile)] *)
Definition digest_file (srcfile : string) : M string :=
  w ← get_world;
  match files w !! srcfile with
  | Some bytes => mret (digest E bytes)
  | None => raise IOError
  end.

(** [os.path.exists(self._store.object_path(objhash))] *)
Definition object_exists (objhash : string) : M bool :=
  w ← get_world; mret (bool_decide (is_Some (objects w !! objhash))).

(** [copyfile(srcfile, tmppath)]: the destination is created empty, then
    filled. *)
Definition copyfile (srcfile tmpname : string) : M unit :=
  w ← get_world;
  match files w !! srcfile with
  | None => raise IOError
  | Some bytes =>
      if negb (store_writable w) then raise IOError
      else
        effect;;
        w ← get_world;
        put_world (set_tmp_objects (<[tmpname := ""]> (tmp_objects w)) w);;
        effect;;
        w ← get_world;
        put_world (set_tmp_objects (<[tmpname := bytes]> (tmp_objects w)) w)
  end.

(** [move(tmppath, objpath)]: one rename. *)
Definition move (tmpname objhash : string) : M unit :=
  w ← get_world;
  match tmp_objects w !! tmpname with
  | None => raise IOError
  | Some bytes =>
      if negb (store_writable w) then raise IOError
      else
        effect;;
        w ← get_world;
        put_world
          (set_objects (<[objhash := bytes]> (objects w))
             (set_tmp_objects (delete tmpname (tmp_objects w)) w))
  end.

(** [open(dest, 'w')] in [<path>/contents]: the file exists and is empty. *)
Definition open_contents_file (name : string) : M unit :=
  w ← get_world;
  match contents_dir w with
  | None => raise IOError
  | Some d =>
      effect;;
      w ← get_world;
      put_world (set_contents_dir (Some (<[name := None]> d)) w)
  end.

(** The document reaches the file when the [with] block closes it. *)
Definition write_contents_file (name : string) (doc : json) : M unit :=
  effect;;
  w ← get_world;
  match contents_dir w with
  | None => raise IOError
  | Some d => put_world (set_contents_dir (Some (<[name := Some doc]> d)) w)
  end.

(** [os.path.isdir(tag_dir)] and [os.mkdir(tag_dir)] *)
Definition tags_isdir : M bool :=
  w ← get_world; mret (bool_decide (is_Some (tags_dir w))).

Definition tags_mkdir : M unit :=
  effect;;
  w ← get_world; put_world (set_tags_dir (Some ∅) w).

(** [open(latest_tag, 'w')], then [tagfile.write(...)] and the close. *)
Definition open_tag_file (name : string) : M unit :=
  w ← get_world;
  match tags_dir w with
  | None => raise IOError
  | Some d =>
      effect;;
      w ← get_world; put_world (set_tags_dir (Some (<[name := ""]> d)) w)
  end.

Definition write_tag_file (name text : string) : M unit :=
  effect;;
  w ← get_world;
  match tags_dir w with
  | None => raise IOError
  | Some d => put_world (set_tags_dir (Some (<[name := text]> d)) w)
  end.

(** What [open(latest_tag).read()] finds: [None] when
    [os.path.exists(latest_tag)] is false. *)
Definition read_tag (name : string) (w : World) : option string :=
  d ← tags_dir w; d !! name.

(** The entry of [<path>/contents] under [name]: [None] when
    [os.path.isfile(contents_path)] is false. *)
Definition read_contents (name : string) (w : World)
  : option (option json) :=
  d ← contents_dir w; d !! name.

(** *** [save_file] *)
Definition save_file (srcfile name : string) (path : option string)
  : M unit :=
  filehash ← digest_file srcfile;
  let fullname := build_name name in
  _add_to_contents fullname [filehash] "" path "file" None;;
  present ← object_exists filehash;
  if negb present then
    copyfile srcfile filehash;;
    move filehash filehash
  else mret tt.

(** *** [save_group] *)
Definition save_group (name : string) : M unit :=
  let fullname := build_name name in
  if negb (String.eqb fullname "") then
    _add_to_contents fullname [] "" None "group" None
  else mret tt.

(** *** [core.hash_contents] *)

Definition atom_token (v : option string) : token :=
  match v with
  | Some s => TStr s
  | None => TNone
  end.

Definition metadata_tokens (m : Metadata) : list token :=
  TInt (length m)
    :: concat (map (λ kv, [TStr kv.1; atom_token kv.2]) (sort_keys m)).

(** Modelled from the spec: the canonical serialisation that
    [core.hash_contents] digests; [core.py] is not among the sources.  The
    spec gives it as a serialisation of the tree where group children are
    ordered by sorted key and node fields appear in a fixed field order;
    here the fields are the type tag, the sizes, the hashes, the format
    and the metadata in key order. *)
Fixpoint canonical (n : Node) : list token :=
  match n with
  | GroupNode children =>
      TStr "GROUP" :: TInt (length children)
        :: concat (map (λ kv : string * list token, TStr kv.1 :: kv.2)
                     (sort_keys
                        (map (λ kv : string * Node, (kv.1, canonical kv.2))
                           children)))
  | TableNode hashes format metadata =>
      TStr "TABLE" :: TInt (length hashes)
        :: map TStr hashes ++ TStr format :: metadata_tokens metadata
  | FileNode hashes metadata =>
      TStr "FILE" :: TInt (length hashes)
        :: map TStr hashes ++ metadata_tokens metadata
  end.

(** Modelled from the spec: [core.hash_contents], which [core.py] defines
    and [get_hash] calls; the spec gives it as a digest over the canonical
    byte serialisation of the tree. *)
Definition hash_contents (contents : Node) : string :=
  sha256_hexdigest E (canonical contents).

(** *** [get_hash] *)
Definition get_hash : M string :=
  contents ← get_contents; mret (hash_contents contents).

(** *** [core.encode_node] and [core.decode_node] *)

Definition atom_val (v : option string) : pyval :=
  match v with
  | Some s => PStr s
  | None => PNone
  end.

(** Modelled from the spec: [core.encode_node], which [core.py] defines
    and [save_contents] passes to [json.dump] as [default].  The spec gives
    the snapshot as a map-like document in which each node carries an
    explicit type discriminator plus its variant-specific fields (children
    map / hash list + format + metadata / hash list + metadata); the
    fields bear the names the constructors take them under. *)
Definition encode_node (node : Node) : list (string * pyval) :=
  match node with
  | GroupNode children =>
      [(type_key E, PStr "GROUP");
       ("children", PDict (map (λ kv, (kv.1, PNode kv.2)) children))]
  | TableNode hashes format metadata =>
      [(type_key E, PStr "TABLE");
       ("hashes", PList (map PStr hashes));
       ("format", PStr format);
       ("metadata", PDict (map (λ kv, (kv.1, atom_val kv.2)) metadata))]
  | FileNode hashes metadata =>
      [(type_key E, PStr "FILE");
       ("hashes", PList (map PStr hashes));
       ("metadata", PDict (map (λ kv, (kv.1, atom_val kv.2)) metadata))]
  end.

(** What a constructor accepts for each field; anything else is a
    snapshot that is not a well-formed serialised tree. *)
Fixpoint as_children (d : list (string * pyval))
  : option (list (string * Node)) :=
  match d with
  | [] => Some []
  | (k, PNode n) :: d' => cs ← as_children d'; Some ((k, n) :: cs)
  | _ => None
  end.

Fixpoint as_hashes (l : list pyval) : option (list string) :=
  match l with
  | [] => Some []
  | PStr h :: l' => hs ← as_hashes l'; Some (h :: hs)
  | _ => None
  end.

Fixpoint as_metadata (d : list (string * pyval)) : option Metadata :=
  match d with
  | [] => Some []
  | (k, PStr s) :: d' => m ← as_metadata d'; Some ((k, Some s) :: m)
  | (k, PNone) :: d' => m ← as_metadata d'; Some ((k, None) :: m)
  | _ => None
  end.

Definition decode_group (fields : list (string * pyval)) : option Node :=
  match dict_get "children" fields, length fields with
  | Some (PDict d), 1 => GroupNode <$> as_children d
  | _, _ => None
  end.

Definition decode_table (fields : list (string * pyval)) : option Node :=
  match dict_get "hashes" fields, dict_get "format" fields,
        dict_get "metadata" fields, length fields with
  | Some (PList l), Some (PStr f), Some (PDict d), 3 =>
      hs ← as_hashes l; m ← as_metadata d; Some (TableNode hs f m)
  | _, _, _, _ => None
  end.

Definition decode_file (fields : list (string * pyval)) : option Node :=
  match dict_get "hashes" fields, dict_get "metadata" fields,
        length fields with
  | Some (PList l), Some (PDict d), 2 =>
      hs ← as_hashes l; m ← as_metadata d; Some (FileNode hs m)
  | _, _, _ => None
  end.

(** The variant a discriminator names, built from the other entries. *)
Definition decode_fields (tag : string) (fields : list (string * pyval))
  : option Node :=
  if String.eqb tag "GROUP" then decode_group fields
  else if String.eqb tag "TABLE" then decode_table fields
  else if String.eqb tag "FILE" then decode_file fields
  else None.

(** Modelled from the spec: [core.decode_node], which [core.py] defines
    and [_load_contents] passes to [json.load] as [object_hook].  The spec
    has the discriminator decoded into the matching variant.  [json.load]
    calls the hook on every object of the document, the children maps and
    the metadata maps included, and the constructors take these as maps:
    an object without an entry under the key of the discriminator is
    returned as it is.  What becomes of an object that has such an entry
    and does not spell a node (the entry is no tag, or the other entries
    are not the fields of the variant) is [decode_other]. *)
Definition decode_node (value : list (string * pyval)) : result pyval :=
  match dict_get (type_key E) value with
  | None => Ok (PDict value)
  | Some entry =>
      let fields := dict_remove (type_key E) value in
      let node :=
        match entry with
        | PStr tag => decode_fields tag fields
        | _ => None
        end in
      match node with
      | Some n => Ok (PNode n)
      | None => decode_other E value
      end
  end.

(** *** [json.dump(self._contents, f, default=encode_node, sort_keys=True)]

    A node is not serialisable, so the encoder asks [default] for a
    dictionary and serialises that one, its keys sorted; the children it
    meets there are nodes again. *)
Definition dump_atom (v : option string) : json :=
  match v with
  | Some s => JString s
  | None => JNull
  end.

Definition dump_metadata (m : Metadata) : json :=
  JObject (sort_keys (map (λ kv, (kv.1, dump_atom kv.2)) m)).

Fixpoint json_dump (node : Node) : json :=
  match node with
  | GroupNode children =>
      JObject (sort_keys
        [(type_key E, JString "GROUP");
         ("children",
           JObject (sort_keys
             (map (λ kv : string * Node, (kv.1, json_dump kv.2))
                children)))])
  | TableNode hashes format metadata =>
      JObject (sort_keys
        [(type_key E, JString "TABLE");
         ("hashes", JArray (map JString hashes));
         ("format", JString format);
         ("metadata", dump_metadata metadata)])
  | FileNode hashes metadata =>
      JObject (sort_keys
        [(type_key E, JString "FILE");
         ("hashes", JArray (map JString hashes));
         ("metadata", dump_metadata metadata)])
  end.

(** The encoder on a value without nodes below the top: what [json_dump]
    does with the dictionary [encode_node] returns. *)
Fixpoint dump_value (dump_child : Node → json) (v : pyval) : json :=
  match v with
  | PNone => JNull
  | PStr s => JString s
  | PList l => JArray (map (dump_value dump_child) l)
  | PDict d =>
      JObject (sort_keys
        (map (λ kv : string * pyval, (kv.1, dump_value dump_child kv.2)) d))
  | PNode n => dump_child n
  end.

(** *** [json.load(f, object_hook=decode_node)]

    The members of an object are loaded in document order into a
    dictionary (a repeated key keeps its first place and takes the last
    value), and the hook is called on the result. *)
Section load_members.
Variable load : json → result pyval.

Fixpoint load_items (l : list json) (acc : list pyval) : result pyval :=
  match l with
  | [] => Ok (PList (rev acc))
  | j :: l' =>
      match load j with
      | Ok v => load_items l' (v :: acc)
      | Raise e => Raise e
      end
  end.

Fixpoint load_pairs (l : list (string * json)) (acc : list (string * pyval))
  : result pyval :=
  match l with
  | [] => decode_node acc
  | (k, j) :: l' =>
      match load j with
      | Ok v => load_pairs l' (dict_set k v acc)
      | Raise e => Raise e
      end
  end.
End load_members.

Fixpoint json_load (doc : json) : result pyval :=
  match doc with
  | JNull => Ok PNone
  | JString s => Ok (PStr s)
  | JArray l => load_items json_load l []
  | JObject members => load_pairs json_load members []
  end.

(** *** [save_contents] *)
Definition save_contents : M unit :=
  instance_hash ← get_hash;
  contents ← get_contents;
  open_contents_file instance_hash;;
  write_contents_file instance_hash (json_dump contents);;
  tag_dir ← tags_isdir;
  (if negb tag_dir then tags_mkdir else mret tt);;
  open_tag_file LATEST;;
  write_tag_file LATEST instance_hash.

(** *** [_load_contents] *)
Definition _load_contents (instance_hash : option string) : M pyval :=
  s ← (λ s, (s, Ok s));
  w ← get_world;
  instance_hash ←
    match instance_hash with
    | None =>
        match read_tag LATEST w with
        | None =>
            raise (PackageException
              ("Could not find latest tag for package "
                 ++ _user (self s) ++ "/" ++ _package (self s)))
        | Some text => mret text
        end
    | Some h => mret h
    end;
  match read_contents instance_hash w with
  | None =>
      raise (PackageException
        ("Invalid hash for package " ++ _user (self s) ++ "/"
           ++ _package (self s) ++ ": " ++ instance_hash))
  | Some None => raise ValueError
  | Some (Some doc) => lift (json_load doc)
  end.

(** *** [_check_hashes] *)
Fixpoint _check_hashes (hash_list : list string) : M unit :=
  match hash_list with
  | [] => mret tt
  | objhash :: hash_list' =>
      present ← object_exists objhash;
      if negb present then
        raise (PackageException
          "Missing object fragments; re-install the package")
      else _check_hashes hash_list'
  end.

(** *** [file] *)
Definition file (hash_list : list string) : M string :=
  match hash_list with
  | [filehash] => mret (object_path E filehash)
  | _ =>
      raise (AssertionError "File objects must be contained in one file.")
  end.

(** *** [_dataframe] and the readers it dispatches to

    Each reader hands the object paths to its library; the request is
    recorded in [codec_calls] before the library answers. *)
Definition codec_call (fmt : PackageFormat) (hash_list : list string)
  : M unit :=
  w ← get_world;
  put_world (set_codec_calls (codec_calls w ++ [(fmt, hash_list)]) w).

Definition _read_hdf5 (hash_list : list string) : M (DataFrame E) :=
  match hash_list with
  | [filehash] =>
      codec_call HDF5 hash_list;;
      mret (read_hdf5 E (object_path E filehash))
  | _ => raise (AssertionError "Multi-file DFs not supported in HDF5.")
  end.

Definition _read_parquet_arrow (hash_list : list string)
  : M (DataFrame E) :=
  let objfiles := map (object_path E) hash_list in
  codec_call PARQUET hash_list;;
  match read_parquet_arrow E objfiles with
  | inl dataframe => mret dataframe
  | inr err => raise (PackageException err)
  end.

Definition _read_parquet_spark (hash_list : list string)
  : M (DataFrame E) :=
  let objfiles := map (object_path E) hash_list in
  codec_call PARQUET hash_list;;
  mret (read_parquet_spark E objfiles).

(** [_dataframe] after [enumformat = PackageFormat(pkgformat)]. *)
Definition _dataframe_enum (hash_list : list string)
    (enumformat : PackageFormat) : M (DataFrame E) :=
  match enumformat with
  | HDF5 => _read_hdf5 hash_list
  | PARQUET =>
      match get_parquet_lib E with
      | None => raise ValueError
      | Some SPARK => _read_parquet_spark hash_list
      | Some ARROW => _read_parquet_arrow hash_list
      end
  end.

Definition _dataframe (hash_list : list string) (pkgformat : string)
  : M (DataFrame E) :=
  match PackageFormat_of E pkgformat with
  | None => raise ValueError
  | Some enumformat => _dataframe_enum hash_list enumformat
  end.

(** *** [core.find_object_hashes] *)

Fixpoint table_hashes (node : Node) : list string :=
  match node with
  | GroupNode children =>
      concat (map (λ kv : string * Node, table_hashes kv.2) children)
  | TableNode hashes _ _ => hashes
  | FileNode _ _ => []
  end.

(** Modelled from the spec: [core.find_object_hashes] with [sort=True],
    which [core.py] defines; the spec gives it as all hashes from every
    descendant TableNode, in deterministic sorted order. *)
Definition find_object_hashes (node : Node) : list string :=
  merge_sort String.le (table_hashes node).

(** *** [get_obj] *)
Inductive obj : Type :=
| ObjDataFrame (dataframe : DataFrame E)
| ObjPath (path : string).

Definition get_obj (node : Node) : M obj :=
  match node with
  | TableNode hashes format _ =>
      _check_hashes hashes;;
      dataframe ← _dataframe hashes format; mret (ObjDataFrame dataframe)
  | GroupNode _ =>
      let hash_list := find_object_hashes node in
      _check_hashes hash_list;;
      dataframe ← _dataframe_enum hash_list PARQUET;
      mret (ObjDataFrame dataframe)
  | FileNode hashes _ =>
      _check_hashes hashes;;
      path ← file hashes; mret (ObjPath path)
  end.

End Package.

Arguments ObjDataFrame {E} dataframe.
Arguments ObjPath {E} path.

(** ** Structural equality of trees

    Python compares two dictionaries by their entries, whatever the order
    they were inserted in: same number of keys, and every key of the first
    bound to an equal value in the second.  Hash lists compare as lists. *)

Definition metadata_eqb (m1 m2 : Metadata) : bool :=
  Nat.eqb (length m1) (length m2)
  && forallb (λ kv, bool_decide (dict_get kv.1 m2 = Some kv.2)) m1.

Fixpoint node_eqb (a b : Node) : bool :=
  match a, b with
  | GroupNode c1, GroupNode c2 =>
      Nat.eqb (length c1) (length c2)
      && forallb (λ kv : string * Node,
                    match dict_get kv.1 c2 with
                    | Some w => node_eqb kv.2 w
                    | None => false
                    end) c1
  | TableNode h1 f1 m1, TableNode h2 f2 m2 =>
      bool_decide (h1 = h2) && String.eqb f1 f2 && metadata_eqb m1 m2
  | FileNode h1 m1, FileNode h2 m2 =>
      bool_decide (h1 = h2) && metadata_eqb m1 m2
  | _, _ => false
  end.

(** The association lists that stand for dictionaries: no key twice, at
    every level. *)
Fixpoint is_dict_tree (n : Node) : bool :=
  match n with
  | GroupNode children =>
      bool_decide (NoDup (dict_keys children))
      && forallb (λ kv : string * Node, is_dict_tree kv.2) children
  | TableNode _ _ metadata => bool_decide (NoDup (dict_keys metadata))
  | FileNode _ metadata => bool_decide (NoDup (dict_keys metadata))
  end.





(** A name of an entry of a directory: not empty, not ["."] or [".."],
    without a slash. *)
Definition entry_name (name : string) : bool :=
  is_segment name && negb (String.eqb name "..") && no_char slash name.

(** ** Sequences of save operations *)

Inductive save_op : Type :=
| SaveGroup (name : string)
| SaveFile (srcfile name : string) (path : option string)
| SaveCachedDf (hashes : list string) (name : string) (path : option string)
    (ext target : string) (fmt : option PackageFormat)
| SavePackageTree (name : string) (pkgnode : Node)
| AddToContents (fullname : string) (hashes : list string) (ext : string)
    (path : option string) (target : string) (fmt : option PackageFormat).

Definition run_op (E : Env) (o : save_op) : M unit :=
  match o with
  | SaveGroup name => save_group E name
  | SaveFile srcfile name path => save_file E srcfile name path
  | SaveCachedDf hashes name path ext target fmt =>
      save_cached_df E hashes name path ext target fmt
  | SavePackageTree name pkgnode => save_package_tree name pkgnode
  | AddToContents fullname hashes ext path target fmt =>
      _add_to_contents E fullname hashes ext path target fmt
  end.

(** The state a caller is left with after the calls, whether they returned
    or raised. *)
Fixpoint run_ops (E : Env) (ops : list save_op) (s : State) : State :=
  match ops with
  | [] => s
  | o :: ops' => run_ops E ops' (run_op E o s).1
  end.

(** The trees handed to [save_package_tree] are dictionaries too. *)
Definition op_ok (o : save_op) : bool :=
  match o with
  | SavePackageTree _ pkgnode => is_dict_tree pkgnode
  | _ => true
  end.

(** ** An environment to run the methods in *)

Definition quote (s : string) : string := "'" ++ s ++ "'".

Definition show_token (t : token) : string :=
  match t with
  | TInt n => "#" ++ String.concat "" (replicate n "|") ++ ";"
  | TStr s => "<" ++ s ++ ">"
  | TNone => "~"
  end.

Definition test_env : Env := {|
  DataFrame := list string;
  is_nodename := λ s, negb (String.eqb s "") && negb (String.eqb s "_");
  repr := quote;
  digest := λ bytes, "sha256:" ++ bytes;
  object_path := λ h, "objs/" ++ h;
  TargetType_of := λ v,
    if String.eqb v "pandas" then Some PANDAS
    else if String.eqb v "file" then Some FILE
    else if String.eqb v "group" then Some GROUP
    else None;
  PackageFormat_of := λ v,
    if String.eqb v "HDF5" then Some HDF5
    else if String.eqb v "PARQUET" then Some PARQUET
    else None;
  PackageFormat_value := λ f,
    match f with HDF5 => "HDF5" | PARQUET => "PARQUET" end;
  get_parquet_lib := Some ARROW;
  read_hdf5 := λ p, [p];
  read_parquet_arrow := λ ps, inl ps;
  read_parquet_spark := λ ps, ps;
  sha256_hexdigest := λ ts, String.concat "" (map show_token ts);
  type_key := "type";
  decode_other := λ _, Raise ValueError
|}.

(** The same environment with a decoder that leaves alone what does not
    spell a node. *)
Definition lenient_env : Env := {|
  DataFrame := DataFrame test_env;
  is_nodename := is_nodename test_env;
  repr := repr test_env;
  digest := digest test_env;
  object_path := object_path test_env;
  TargetType_of := TargetType_of test_env;
  PackageFormat_of := PackageFormat_of test_env;
  PackageFormat_value := PackageFormat_value test_env;
  get_parquet_lib := get_parquet_lib test_env;
  read_hdf5 := read_hdf5 test_env;
  read_parquet_arrow := read_parquet_arrow test_env;
  read_parquet_spark := read_parquet_spark test_env;
  sha256_hexdigest := sha256_hexdigest test_env;
  type_key := "type";
  decode_other := λ value, Ok (PDict value)
|}.

(** An empty package in a fresh directory, with two source files. *)
Definition empty_world : World := {|
  files := {[ "a.txt" := "alpha"; "b.txt" := "beta" ]};
  objects := ∅;
  tmp_objects := ∅;
  store_writable := true;
  contents_dir := Some ∅;
  tags_dir := Some ∅;
  interrupt_after := None;
  codec_calls := []
|}.

Definition empty_package : State :=
  mkState (mkPackage "usr" "pkg" (GroupNode [])) empty_world.

(** The same world with two objects in the store. *)
Definition stored_world : World :=
  set_objects {[ "h1" := "x"; "h2" := "y" ]} empty_world.

(** The insertion point of [descend] can be reached: no table or file on
    the way down [ipath]. *)
Fixpoint traversable (ipath : list string) (ptr : Node) : bool :=
  match ipath with
  | [] => true
  | name :: ipath' =>
      match ptr with
      | GroupNode children =>
          traversable ipath' (default (GroupNode []) (dict_get name children))
      | _ => false
      end
  end.

(** What touches only the world leaves the package object alone. *)
Definition keeps_self {A} (m : M A) : Prop := ∀ s, self (m s).1 = self s.

(** The store commit of [save_file], after the insertion. *)
Definition commit_object (srcfile filehash : string) : M unit :=
  present ← object_exists filehash;
  if negb present then
    copyfile srcfile filehash;;
    move filehash filehash
  else mret tt.

(** The empty package with a store that refuses writes. *)
Definition readonly_store_world : World := {|
  files := {[ "a.txt" := "alpha"; "b.txt" := "beta" ]};
  objects := ∅;
  tmp_objects := ∅;
  store_writable := false;
  contents_dir := Some ∅;
  tags_dir := Some ∅;
  interrupt_after := None;
  codec_calls := []
|}.

(** The contents of the package are dictionaries at every level. *)
Definition dict_state (s : State) : Prop :=
  is_dict_tree (_contents (self s)) = true.

Definition preserves {A} (P : State → Prop) (m : M A) : Prop :=
  ∀ s, P s → P (m s).1.


(** The node found by following [keys] down from [n]. *)
Fixpoint node_at (keys : list string) (n : Node) : option Node :=
  match keys with
  | [] => Some n
  | k :: keys' =>
      match n with
      | GroupNode children => dict_get k children ≫= node_at keys'
      | _ => None
      end
  end.

(** A package directory whose tag reads "old", in a build that is
    interrupted after two file-system effects. *)
Definition interrupted_world : World :=
  set_interrupt_after (Some 2)
    (set_tags_dir (Some {[ "latest" := "old" ]}) empty_world).

(** A path segment that is one key for [__getitem__] and for
    [_add_to_contents] alike: kept by [PurePosixPath], and without a dot. *)
Definition clean_segment (x : string) : bool :=
  plain_segment x && no_char dot x.

(** A package directory whose tag reads the hash of the empty tree and
    whose snapshot under that hash is complete; the build is interrupted
    after one file-system effect. *)
Definition resave_world : World :=
  set_interrupt_after (Some 1)
    (set_tags_dir
       (Some {[ "latest" := sha256_hexdigest test_env (canonical (GroupNode [])) ]})
       (set_contents_dir
          (Some {[ sha256_hexdigest test_env (canonical (GroupNode []))
                   := Some (json_dump test_env (GroupNode [])) ]})
          empty_world)).

(** Every hash that a table or a file node of the tree names has its
    object in the store [objs]. *)
Fixpoint refs_stored (objs : gmap string string) (n : Node) : bool :=
  match n with
  | GroupNode children =>
      forallb (λ kv : string * Node, refs_stored objs kv.2) children
  | TableNode hashes _ _ =>
      forallb (λ h, bool_decide (is_Some (objs !! h))) hashes
  | FileNode hashes _ =>
      forallb (λ h, bool_decide (is_Some (objs !! h))) hashes
  end.

(** The empty world in a build that is interrupted at its second
    file-system effect: inside [copyfile]. *)
Definition copy_interrupted_world : World :=
  set_interrupt_after (Some 1) empty_world.

(** ** The choice of the Parquet library ([ParquetLib], [get_parquet_lib],
    [reset_parquet_lib], [set_parquet_lib])

    The class attribute [__parquet_lib] and the environment variable
    [QUILT_PARQUET_LIBRARY] ([None]: not set) are the state. *)

Module ParquetChoice.

Record ClassState : Type := mkClassState {
  __parquet_lib : option ParquetLib;
  QUILT_PARQUET_LIBRARY : option string
}.

(** [lib.value] *)
Definition value (lib : ParquetLib) : string :=
  match lib with
  | SPARK => "pyspark"
  | ARROW => "pyarrow"
  end.

(** [ParquetLib(v)]: [ValueError] for a string that is no value. *)
Definition of_value (v : string) : result ParquetLib :=
  if String.eqb v "pyspark" then Ok SPARK
  else if String.eqb v "pyarrow" then Ok ARROW
  else Raise ValueError.

Definition get_parquet_lib (c : ClassState) : ClassState * result ParquetLib :=
  match __parquet_lib c with
  | None =>
      let parq_env := default (value ARROW) (QUILT_PARQUET_LIBRARY c) in
      match of_value parq_env with
      | Ok lib => (mkClassState (Some lib) (QUILT_PARQUET_LIBRARY c), Ok lib)
      | Raise e => (c, Raise e)
      end
  | Some lib => (c, Ok lib)
  end.

Definition reset_parquet_lib (c : ClassState) : ClassState * result unit :=
  (mkClassState None (QUILT_PARQUET_LIBRARY c), Ok tt).

(** [parqlib] is given by its value; a member stands for its own value. *)
Definition set_parquet_lib (parqlib : string) (c : ClassState)
  : ClassState * result unit :=
  match of_value parqlib with
  | Ok lib => (mkClassState (Some lib) (QUILT_PARQUET_LIBRARY c), Ok tt)
  | Raise e => (c, Raise e)
  end.

(** The process sets or unsets the environment variable. *)
Definition setenv (v : option string) (c : ClassState) : ClassState :=
  mkClassState (__parquet_lib c) v.

End ParquetChoice.

(** A package directory whose tag reads "old", in a build that is
    interrupted after three file-system effects: the snapshot is written
    and the tag file is open. *)
Definition tag_open_world : World :=
  set_interrupt_after (Some 3)
    (set_tags_dir (Some {[ "latest" := "old" ]}) empty_world).


(** * Properties *)

(** ** Strings *)

Lemma lstrip_only_slashes s : only_slashes s = true → lstrip_slash s = "".
Proof.
  induction s as [| c s IH]; simpl; [done |].
  intros [Hc Hs]%andb_prop. rewrite Hc. auto.
Qed.

Lemma split_on_not_nil sep s : split_on sep s ≠ [].
Proof.
  destruct s as [| c s]; simpl; [done |].
  destruct (Ascii.eqb c sep); [done |]. by destruct (split_on sep s).
Qed.

Lemma split_on_no_char sep s : no_char sep s = true → split_on sep s = [s].
Proof.
  induction s as [| c s IH]; simpl; [done |].
  intros [Hc Hs]%andb_prop. apply negb_true_iff in Hc. rewrite Hc.
  by rewrite (IH Hs).
Qed.

Lemma split_on_app sep a r :
  no_char sep a = true →
  split_on sep (a ++ String sep r) = a :: split_on sep r.
Proof.
  induction a as [| c a IH]; simpl.
  - intros _. by rewrite Ascii.eqb_refl.
  - intros [Hc Ha]%andb_prop. apply negb_true_iff in Hc. rewrite Hc.
    by rewrite (IH Ha).
Qed.

Lemma replace_slash_dot_no_slash s :
  no_char slash s = true → replace_slash_dot s = s.
Proof.
  induction s as [| c s IH]; simpl; [done |].
  intros [Hc Hs]%andb_prop. apply negb_true_iff in Hc. rewrite Hc.
  by rewrite (IH Hs).
Qed.

Lemma replace_slash_dot_app a b :
  replace_slash_dot (a ++ b) = replace_slash_dot a ++ replace_slash_dot b.
Proof. induction a as [| c a IH]; simpl; [done |]. by rewrite IH. Qed.

Lemma lstrip_slash_no_slash a r :
  a ≠ "" → no_char slash a = true → lstrip_slash (a ++ r) = a ++ r.
Proof.
  destruct a as [| c a]; [done |]. simpl.
  intros _ [Hc _]%andb_prop. apply negb_true_iff in Hc. by rewrite Hc.
Qed.

Lemma leading_slashes_no_slash a r :
  a ≠ "" → no_char slash a = true → leading_slashes (a ++ r) = 0.
Proof.
  destruct a as [| c a]; [done |]. simpl.
  intros _ [Hc _]%andb_prop. apply negb_true_iff in Hc. by rewrite Hc.
Qed.

Lemma plain_segment_inv x :
  plain_segment x = true →
  x ≠ "" ∧ is_segment x = true ∧ no_char slash x = true.
Proof.
  unfold plain_segment. intros [Hs Hn]%andb_prop. split_and!; [| done..].
  intros ->. done.
Qed.

(** The parts of a three-segment path. *)
Lemma posix_parts_three a b c :
  plain_segment a = true → plain_segment b = true → plain_segment c = true →
  posix_anchor (a ++ "/" ++ b ++ "/" ++ c) = ""
  ∧ posix_parts (a ++ "/" ++ b ++ "/" ++ c) = [a; b; c].
Proof.
  intros (Ha0 & Ha1 & Ha2)%plain_segment_inv (Hb0 & Hb1 & Hb2)%plain_segment_inv
    (Hc0 & Hc1 & Hc2)%plain_segment_inv.
  assert (posix_anchor (a ++ "/" ++ b ++ "/" ++ c) = "") as Hanchor.
  { unfold posix_anchor. by rewrite leading_slashes_no_slash. }
  split; [done |]. unfold posix_parts. rewrite Hanchor. simpl.
  change (a ++ "/" ++ b ++ "/" ++ c)
    with (a ++ String slash (b ++ String slash c)).
  rewrite !split_on_app, split_on_no_char by done.
  simpl. by rewrite Ha1, Hb1, Hc1.
Qed.

(** ** Running the monad *)

Lemma bind_ok {A B} (m : M A) (f : A → M B) s s' a :
  m s = (s', Ok a) → (m ≫= f) s = f a s'.
Proof. intros H. unfold mbind, M_bind. by rewrite H. Qed.

Lemma bind_raise {A B} (m : M A) (f : A → M B) s s' e :
  m s = (s', Raise e) → (m ≫= f) s = (s', Raise e).
Proof. intros H. unfold mbind, M_bind. by rewrite H. Qed.

Ltac unfold_monad :=
  unfold mbind, M_bind, mret, M_ret, raise, lift, get_contents, set_contents,
    get_world, put_world in *.

Lemma with_contents_same s : with_contents (_contents (self s)) s = s.
Proof. by destruct s as [[u p c] w]. Qed.

Lemma with_world_same s : with_world (world s) s = s.
Proof. by destruct s as [[u p c] w]. Qed.

(** ** [save_group] with a blank name *)

(** C10: for every name that is empty or made of '/' characters only,
    [save_group] returns without raising and leaves the whole state, the
    package contents and the store, as it found it. *)
Theorem save_group_blank_is_noop (E : Env) (name : string) (s : State) :
  only_slashes name = true →
  save_group E name s = (s, Ok tt).
Proof.
  intros Hname. unfold save_group, build_name.
  by rewrite (lstrip_only_slashes _ Hname).
Qed.

Lemma save_group_blank_is_noop_witness :
  save_group test_env "//" empty_package = (empty_package, Ok tt).
Proof. apply save_group_blank_is_noop. reflexivity. Defined.

(** ** [save_package_tree] at the root *)

(** C6: grafting a subtree at the empty name gives the root the children
    of the subtree when the root has none; when the root has children the
    call raises the overwrite error and the state is unchanged; and the
    call returns normally only in the first case. *)
Theorem save_package_tree_root_guard (pkgchildren : list (string * Node))
    (s : State) :
  (_contents (self s) = GroupNode [] →
     save_package_tree "" (GroupNode pkgchildren) s
     = (with_contents (GroupNode pkgchildren) s, Ok tt))
  ∧ (∀ children pkgnode,
       _contents (self s) = GroupNode children → children ≠ [] →
       save_package_tree "" pkgnode s
       = (s, Raise (PackageException
                 "Attempting to overwrite root node of a non-empty package.")))
  ∧ (∀ pkgnode s',
       save_package_tree "" pkgnode s = (s', Ok tt) →
       _contents (self s) = GroupNode []
       ∧ ∃ children, pkgnode = GroupNode children
                     ∧ _contents (self s') = GroupNode children).
Proof.
  split_and!.
  - intros Hroot. unfold save_package_tree. unfold_monad. simpl.
    by rewrite Hroot.
  - intros children pkgnode Hroot Hne. unfold save_package_tree.
    unfold_monad. simpl. rewrite Hroot. by destruct children.
  - intros pkgnode s'. unfold save_package_tree. unfold_monad. simpl.
    destruct (_contents (self s)) as [[| kv children] | |]; try done.
    destruct pkgnode as [children | |]; try done.
    intros [= <-]. split; [done |]. by exists children.
Qed.

Lemma save_package_tree_root_guard_witness :
  save_package_tree "" (GroupNode [("x", GroupNode [])]) empty_package
  = (with_contents (GroupNode [("x", GroupNode [])]) empty_package, Ok tt)
  ∧ save_package_tree "" (GroupNode [])
      (with_contents (GroupNode [("x", GroupNode [])]) empty_package)
    = (with_contents (GroupNode [("x", GroupNode [])]) empty_package,
       Raise (PackageException
         "Attempting to overwrite root node of a non-empty package.")).
Proof.
  split.
  - apply (proj1 (save_package_tree_root_guard [("x", GroupNode [])]
                    empty_package)).
    reflexivity.
  - apply (proj1 (proj2 (save_package_tree_root_guard []
             (with_contents (GroupNode [("x", GroupNode [])]) empty_package)))
             [("x", GroupNode [])]); [reflexivity | discriminate].
Defined.

(** ** [__getitem__] on a path of three segments *)

(** C3: on the path a/b/c, [__getitem__] returns the node at a.b.c when it
    exists; when a.b is not a group it raises the not-a-group [TypeError]
    that reports the traversed prefix a/b; when a.b is a group without a
    child c it raises [KeyError] with the prefix a/b and the segment c.
    The state is untouched in every case. *)
Theorem getitem_three_segments (E : Env) (s : State) (a b c : string)
    (root ca : list (string * Node)) (nb : Node) :
  plain_segment a = true → plain_segment b = true → plain_segment c = true →
  is_nodename E a = true → is_nodename E b = true → is_nodename E c = true →
  _contents (self s) = GroupNode root →
  dict_get a root = Some (GroupNode ca) →
  dict_get b ca = Some nb →
  __getitem__ E (a ++ "/" ++ b ++ "/" ++ c) s =
    (s, match nb with
        | GroupNode cb =>
            match dict_get c cb with
            | Some n => Ok n
            | None => Raise (KeyError (a ++ "/" ++ b) c)
            end
        | _ =>
            Raise (TypeError
                     ("Not a GroupNode: Node at " ++ repr E (a ++ "/" ++ b)))
        end).
Proof.
  intros Ha Hb Hc Na Nb Nc Hroot Hca Hnb.
  destruct (posix_parts_three a b c Ha Hb Hc) as [Hanchor Hparts].
  unfold __getitem__. unfold_monad. rewrite Hanchor, Hparts, Hroot.
  assert (String.eqb (a ++ "/" ++ b ++ "/" ++ c) "" = false) as ->.
  { apply String.eqb_neq. apply plain_segment_inv in Ha as [Ha _].
    by destruct a. }
  simpl. rewrite Na, Hca. simpl. rewrite Nb, Hnb. simpl. rewrite Nc. simpl.
  destruct nb as [cb | |]; [| done..].
  by destruct (dict_get c cb).
Qed.

Lemma getitem_three_segments_witness :
  let tree :=
    GroupNode [("a", GroupNode [("b", GroupNode [("c", FileNode ["h"] [])]);
                                ("f", FileNode ["h"] [])])] in
  let s := with_contents tree empty_package in
  __getitem__ test_env "a/b/c" s = (s, Ok (FileNode ["h"] []))
  ∧ __getitem__ test_env "a/f/c" s
    = (s, Raise (TypeError "Not a GroupNode: Node at 'a/f'"))
  ∧ __getitem__ test_env "a/b/d" s = (s, Raise (KeyError "a/b" "d")).
Proof.
  intros tree s. split_and!.
  - apply (getitem_three_segments test_env s "a" "b" "c"
             [("a", GroupNode [("b", GroupNode [("c", FileNode ["h"] [])]);
                               ("f", FileNode ["h"] [])])]
             [("b", GroupNode [("c", FileNode ["h"] [])]);
              ("f", FileNode ["h"] [])]
             (GroupNode [("c", FileNode ["h"] [])])); reflexivity.
  - apply (getitem_three_segments test_env s "a" "f" "c"
             [("a", GroupNode [("b", GroupNode [("c", FileNode ["h"] [])]);
                               ("f", FileNode ["h"] [])])]
             [("b", GroupNode [("c", FileNode ["h"] [])]);
              ("f", FileNode ["h"] [])]
             (FileNode ["h"] [])); reflexivity.
  - apply (getitem_three_segments test_env s "a" "b" "d"
             [("a", GroupNode [("b", GroupNode [("c", FileNode ["h"] [])]);
                               ("f", FileNode ["h"] [])])]
             [("b", GroupNode [("c", FileNode ["h"] [])]);
              ("f", FileNode ["h"] [])]
             (GroupNode [("c", FileNode ["h"] [])])); reflexivity.
Defined.

(** ** [_check_hashes] and [get_obj] *)

Lemma object_exists_eq (s : State) (h : string) :
  object_exists h s = (s, Ok (bool_decide (is_Some (objects (world s) !! h)))).
Proof. reflexivity. Qed.

Lemma check_hashes_missing (hs : list string) (s : State) :
  (∃ h, h ∈ hs ∧ objects (world s) !! h = None) →
  _check_hashes hs s
  = (s, Raise (PackageException
                 "Missing object fragments; re-install the package")).
Proof.
  induction hs as [| h0 hs IH]; intros (h & Hin & Hnone).
  - inversion Hin.
  - simpl. erewrite bind_ok by apply object_exists_eq.
    destruct (objects (world s) !! h0) as [bytes |] eqn:Hh0.
    + rewrite bool_decide_true by eauto. simpl. apply IH.
      exists h. split; [| done]. inversion Hin; subst; [congruence | done].
    + rewrite bool_decide_false by (by intros [? ?]). reflexivity.
Qed.

Lemma check_hashes_present (hs : list string) (s : State) :
  (∀ h, h ∈ hs → is_Some (objects (world s) !! h)) →
  _check_hashes hs s = (s, Ok tt).
Proof.
  induction hs as [| h0 hs IH]; intros Hall; [done |].
  simpl. erewrite bind_ok by apply object_exists_eq.
  rewrite bool_decide_true by (apply Hall; left).
  simpl. apply IH. intros h Hh. apply Hall. by right.
Qed.

(** The state after a codec was handed [hash_list] for [fmt]. *)
Lemma codec_call_eq (fmt : PackageFormat) (hash_list : list string)
    (s : State) :
  codec_call fmt hash_list s
  = (with_world
       (set_codec_calls (codec_calls (world s) ++ [(fmt, hash_list)])
          (world s)) s, Ok tt).
Proof. reflexivity. Qed.

(** C5: on a table or file node with a hash that has no object in the
    store, [get_obj] raises the missing-fragments error, the state is the
    one it started from and no codec was called.  With every object
    present, a file node gives the storage path of its object, and a table
    node is read by the codec of its own format and by no other: the HDF5
    reader for the one object of an HDF5 table, the Parquet reader of the
    chosen library (pyarrow, whose [ValueError] comes back as
    [PackageException], or pyspark) for the objects of a Parquet table in
    the order of the hash list, and [ValueError] with no codec called for
    a format that is no package format. *)
Theorem get_obj_checks_fragments (E : Env) (s : State) (hashes : list string)
    (format h : string) (metadata : Metadata) :
  ((∃ h', h' ∈ hashes ∧ objects (world s) !! h' = None) →
     get_obj E (TableNode hashes format metadata) s
     = (s, Raise (PackageException
                    "Missing object fragments; re-install the package"))
     ∧ get_obj E (FileNode hashes metadata) s
       = (s, Raise (PackageException
                      "Missing object fragments; re-install the package")))
  ∧ (is_Some (objects (world s) !! h) →
       get_obj E (FileNode [h] metadata) s
       = (s, Ok (ObjPath (object_path E h))))
  ∧ ((∀ h', h' ∈ hashes → is_Some (objects (world s) !! h')) →
       let called fmt :=
         with_world
           (set_codec_calls (codec_calls (world s) ++ [(fmt, hashes)])
              (world s)) s in
       (PackageFormat_of E format = None →
          get_obj E (TableNode hashes format metadata) s
          = (s, Raise ValueError))
       ∧ (PackageFormat_of E format = Some HDF5 → hashes = [h] →
            get_obj E (TableNode hashes format metadata) s
            = (called HDF5,
               Ok (ObjDataFrame (read_hdf5 E (object_path E h)))))
       ∧ (PackageFormat_of E format = Some HDF5 → length hashes ≠ 1 →
            get_obj E (TableNode hashes format metadata) s
            = (s, Raise (AssertionError
                           "Multi-file DFs not supported in HDF5.")))
       ∧ (PackageFormat_of E format = Some PARQUET →
            get_parquet_lib E = Some ARROW →
            get_obj E (TableNode hashes format metadata) s
            = (called PARQUET,
               match read_parquet_arrow E (map (object_path E) hashes) with
               | inl dataframe => Ok (ObjDataFrame dataframe)
               | inr err => Raise (PackageException err)
               end))
       ∧ (PackageFormat_of E format = Some PARQUET →
            get_parquet_lib E = Some SPARK →
            get_obj E (TableNode hashes format metadata) s
            = (called PARQUET,
               Ok (ObjDataFrame
                     (read_parquet_spark E (map (object_path E) hashes)))))
       ∧ (PackageFormat_of E format = Some PARQUET →
            get_parquet_lib E = None →
            get_obj E (TableNode hashes format metadata) s
            = (s, Raise ValueError))).
Proof.
  split_and!.
  - intros Hmissing. unfold get_obj.
    split; by erewrite bind_raise by by apply check_hashes_missing.
  - intros Hh. unfold get_obj.
    erewrite bind_ok; [reflexivity |].
    apply check_hashes_present. by intros h' ->%list_elem_of_singleton.
  - intros Hall called.
    assert (get_obj E (TableNode hashes format metadata) s
            = (_dataframe E hashes format
                 ≫= λ dataframe, mret (ObjDataFrame dataframe)) s) as Hget.
    { unfold get_obj. by erewrite bind_ok by by apply check_hashes_present. }
    rewrite Hget. unfold _dataframe, _dataframe_enum, _read_hdf5,
      _read_parquet_arrow, _read_parquet_spark.
    split_and!.
    + intros ->. reflexivity.
    + intros -> ->. reflexivity.
    + intros -> Hlen. by destruct hashes as [| h1 [| h2 hashes]].
    + intros -> ->. unfold mbind, M_bind. rewrite codec_call_eq.
      by destruct (read_parquet_arrow E (map (object_path E) hashes)).
    + intros -> ->. reflexivity.
    + intros -> ->. reflexivity.
Qed.

Lemma get_obj_checks_fragments_witness :
  let s := with_world stored_world empty_package in
  (get_obj test_env (TableNode ["h1"; "h3"] "PARQUET" []) s
   = (s, Raise (PackageException
                  "Missing object fragments; re-install the package"))
   ∧ get_obj test_env (FileNode ["h1"; "h3"] []) s
     = (s, Raise (PackageException
                    "Missing object fragments; re-install the package")))
  ∧ get_obj test_env (FileNode ["h1"] []) s = (s, Ok (ObjPath "objs/h1"))
  ∧ get_obj test_env (TableNode ["h1"; "h2"] "PARQUET" []) s
    = (with_world (set_codec_calls [(PARQUET, ["h1"; "h2"])] stored_world) s,
       Ok (ObjDataFrame (E := test_env) ["objs/h1"; "objs/h2"]))
  ∧ get_obj test_env (TableNode ["h1"] "HDF5" []) s
    = (with_world (set_codec_calls [(HDF5, ["h1"])] stored_world) s,
       Ok (ObjDataFrame (E := test_env) ["objs/h1"]))
  ∧ get_obj test_env (TableNode ["h1"; "h2"] "HDF5" []) s
    = (s, Raise (AssertionError "Multi-file DFs not supported in HDF5."))
  ∧ get_obj test_env (TableNode ["h1"] "CSV" []) s = (s, Raise ValueError).
Proof.
  intros s.
  assert (∀ hs, hs = ["h1"; "h2"] ∨ hs = ["h1"] →
                ∀ h', h' ∈ hs → is_Some (objects (world s) !! h')) as Hstored.
  { intros hs [-> | ->] h' Hh'; apply list_elem_of_In in Hh'; simpl in Hh';
      repeat (destruct Hh' as [<- | Hh']; [vm_compute; eauto |]);
      destruct Hh'. }
  split; [| split_and!].
  - apply (proj1 (get_obj_checks_fragments test_env s ["h1"; "h3"]
                    "PARQUET" "h1" [])).
    exists "h3". split; [| reflexivity]. apply list_elem_of_In. simpl. tauto.
  - apply (proj1 (proj2 (get_obj_checks_fragments test_env s ["h1"; "h3"]
                           "PARQUET" "h1" []))).
    vm_compute. eauto.
  - destruct (proj2 (proj2 (get_obj_checks_fragments test_env s ["h1"; "h2"]
                              "PARQUET" "h1" []))
                (Hstored _ (or_introl eq_refl)))
      as (_ & _ & _ & Harrow & _).
    etrans; [exact (Harrow eq_refl eq_refl) | reflexivity].
  - destruct (proj2 (proj2 (get_obj_checks_fragments test_env s ["h1"]
                              "HDF5" "h1" []))
                (Hstored _ (or_intror eq_refl)))
      as (_ & Hhdf & _).
    etrans; [exact (Hhdf eq_refl eq_refl) | reflexivity].
  - destruct (proj2 (proj2 (get_obj_checks_fragments test_env s ["h1"; "h2"]
                              "HDF5" "h1" []))
                (Hstored _ (or_introl eq_refl)))
      as (_ & _ & Hmany & _).
    apply (Hmany eq_refl). discriminate.
  - destruct (proj2 (proj2 (get_obj_checks_fragments test_env s ["h1"]
                              "CSV" "h1" []))
                (Hstored _ (or_intror eq_refl)))
      as (Hnone & _).
    exact (Hnone eq_refl).
Defined.

(** ** The errors of the package core *)

Lemma descend_raise (ipath : list string) (leaf : string) (e : exn)
    (ptr : Node) :
  traversable ipath ptr = true →
  (descend ipath leaf (Raise e) ptr).2 = Raise e.
Proof.
  revert ptr. induction ipath as [| name ipath IH]; intros ptr; [done |].
  simpl. destruct ptr as [children | |]; [| done..].
  intros Ht. specialize (IH _ Ht).
  by destruct (descend ipath leaf (Raise e)
                 (default (GroupNode []) (dict_get name children))).
Qed.

(** C7, as the code has it: a missing tag, an unknown snapshot hash (a
    file name with no entry in the contents directory), missing object
    fragments and an unrecognized target (with no table or file node on
    the way to the place of insertion) are all raised as the one class
    [PackageException]; what tells them apart is the text of the message,
    which differs between any two of them. *)
Theorem package_failures_one_class (E : Env) (s : State) :
  (read_tag LATEST (world s) = None →
     _load_contents E None s
     = (s, Raise (PackageException
                    ("Could not find latest tag for package "
                       ++ _user (self s) ++ "/" ++ _package (self s)))))
  ∧ (∀ h, entry_name h = true → read_contents h (world s) = None →
       _load_contents E (Some h) s
       = (s, Raise (PackageException
                      ("Invalid hash for package " ++ _user (self s) ++ "/"
                         ++ _package (self s) ++ ": " ++ h))))
  ∧ (∀ hs, (∃ h, h ∈ hs ∧ objects (world s) !! h = None) →
       _check_hashes hs s
       = (s, Raise (PackageException
                      "Missing object fragments; re-install the package")))
  ∧ (∀ fullname hashes ext path target fmt,
       TargetType_of E target = None →
       traversable (pop_last (split_on dot fullname)).1 (_contents (self s))
       = true →
       (_add_to_contents E fullname hashes ext path target fmt s).2
       = Raise (PackageException ("Unrecognized target " ++ target)))
  ∧ (∀ u p h t,
       let tag := "Could not find latest tag for package " ++ u ++ "/" ++ p in
       let hash := "Invalid hash for package " ++ u ++ "/" ++ p ++ ": " ++ h in
       let frag := "Missing object fragments; re-install the package" in
       let target := "Unrecognized target " ++ t in
       tag ≠ hash ∧ tag ≠ frag ∧ tag ≠ target
       ∧ hash ≠ frag ∧ hash ≠ target ∧ frag ≠ target).
Proof.
  split_and!.
  - intros Htag. unfold _load_contents. unfold_monad. by rewrite Htag.
  - intros h _ Hh. unfold _load_contents. unfold_monad. by rewrite Hh.
  - intros hs. apply check_hashes_missing.
  - intros fullname hashes ext path target fmt Htarget Htrav.
    unfold _add_to_contents. unfold_monad.
    destruct (pop_last (split_on dot fullname)) as [ipath leaf].
    unfold new_node. rewrite Htarget.
    pose proof (descend_raise ipath leaf
                  (PackageException ("Unrecognized target " ++ target))
                  _ Htrav) as Hd.
    by destruct (descend ipath leaf _ (_contents (self s))) as [c r];
      simpl in *.
  - intros u p h t. cbv zeta. split_and!; discriminate.
Qed.

Lemma package_failures_one_class_witness :
  _load_contents test_env None empty_package
  = (empty_package,
     Raise (PackageException "Could not find latest tag for package usr/pkg"))
  ∧ _load_contents test_env (Some "0") empty_package
    = (empty_package,
       Raise (PackageException "Invalid hash for package usr/pkg: 0"))
  ∧ _check_hashes ["0"] empty_package
    = (empty_package,
       Raise (PackageException
                "Missing object fragments; re-install the package"))
  ∧ (_add_to_contents test_env "a.x" [] "" None "bogus" None empty_package).2
    = Raise (PackageException "Unrecognized target bogus").
Proof.
  pose proof (package_failures_one_class test_env empty_package)
    as (Htag & Hhash & Hfrag & Htarget & _).
  split_and!.
  - apply Htag. reflexivity.
  - apply (Hhash "0"); reflexivity.
  - apply (Hfrag ["0"]). exists "0". split; [| reflexivity].
    apply list_elem_of_In. simpl. tauto.
  - apply (Htarget "a.x" [] "" None "bogus" None); reflexivity.
Defined.

(** C7, the claim as written, fails: the four failures are raised as one
    and the same class, so an [except] clause cannot tell them apart. *)
Lemma failure_kinds_not_distinct :
  ∃ e1 e2 e3 e4 : exn,
    (_load_contents test_env None empty_package).2 = Raise e1
    ∧ (_load_contents test_env (Some "0") empty_package).2 = Raise e2
    ∧ (_check_hashes ["0"] empty_package).2 = Raise e3
    ∧ (_add_to_contents test_env "x" [] "" None "bogus" None
         empty_package).2 = Raise e4
    ∧ class_of e1 = class_of e2
    ∧ class_of e2 = class_of e3
    ∧ class_of e3 = class_of e4.
Proof.
  exists (PackageException "Could not find latest tag for package usr/pkg"),
    (PackageException "Invalid hash for package usr/pkg: 0"),
    (PackageException "Missing object fragments; re-install the package"),
    (PackageException "Unrecognized target bogus").
  split_and!; reflexivity.
Qed.

(** ** Names with a dot *)

Lemma split_on_keys_no_sep sep s :
  Forall (λ k, no_char sep k = true) (split_on sep s).
Proof.
  induction s as [| c s IH]; simpl.
  - by repeat constructor.
  - destruct (Ascii.eqb c sep) eqn:Hc.
    + by constructor.
    + destruct (split_on sep s) as [| x r].
      * repeat constructor. simpl. by rewrite Hc.
      * inversion IH; subst. constructor; [| done]. simpl. by rewrite Hc.
Qed.

Lemma replace_slash_dot_no_slash_after s :
  no_char slash (replace_slash_dot s) = true.
Proof.
  induction s as [| c s IH]; simpl; [done |].
  rewrite IH, andb_true_r.
  destruct (Ascii.eqb c slash) eqn:Hc; [reflexivity | by rewrite Hc].
Qed.

Lemma split_on_keeps_no_char sep ch s :
  no_char ch s = true → Forall (λ k, no_char ch k = true) (split_on sep s).
Proof.
  induction s as [| c s IH]; simpl.
  - by repeat constructor.
  - intros [Hc Hs]%andb_prop. specialize (IH Hs).
    destruct (Ascii.eqb c sep).
    + by constructor.
    + destruct (split_on sep s) as [| x r].
      * repeat constructor. simpl. by rewrite Hc.
      * inversion IH; subst. constructor; [| done]. simpl. by rewrite Hc.
Qed.

Lemma build_name_dotted a b :
  no_char slash a = true → no_char slash b = true →
  build_name (a ++ "." ++ b) = a ++ "." ++ b.
Proof.
  intros Ha Hb. unfold build_name.
  assert (lstrip_slash (a ++ "." ++ b) = a ++ "." ++ b) as ->.
  { destruct a as [| c a]; [done |]. simpl in *.
    apply andb_prop in Ha as [Hc _]. apply negb_true_iff in Hc.
    by rewrite Hc. }
  rewrite !replace_slash_dot_app, !replace_slash_dot_no_slash by done.
  reflexivity.
Qed.

Lemma split_dotted a b :
  no_char dot a = true → no_char dot b = true →
  pop_last (split_on dot (a ++ "." ++ b)) = ([a], b).
Proof.
  intros Ha Hb. change (a ++ "." ++ b) with (a ++ String dot b).
  by rewrite split_on_app, split_on_no_char.
Qed.

Lemma add_to_contents_dotted (E : Env) (s : State) (a b : string)
    (hashes : list string) (ext : string) (path : option string)
    (target : string) (fmt : option PackageFormat)
    (root ca : list (string * Node)) (node : Node) :
  no_char dot a = true → no_char dot b = true →
  _contents (self s) = GroupNode root →
  default (GroupNode []) (dict_get a root) = GroupNode ca →
  new_node E hashes
    [("q_ext", Some ext); ("q_path", path); ("q_target", Some target)]
    target fmt = Ok node →
  _add_to_contents E (a ++ "." ++ b) hashes ext path target fmt s
  = (with_contents
       (GroupNode (dict_set a (GroupNode (dict_set b node ca)) root)) s,
     Ok tt).
Proof.
  intros Ha Hb Hroot Hca Hnode. unfold _add_to_contents. unfold_monad.
  rewrite split_dotted by done. rewrite Hnode, Hroot. simpl.
  by rewrite Hca.
Qed.

Lemma dict_get_set_eq {V} (k : string) (v : V) (d : list (string * V)) :
  dict_get k (dict_set k v d) = Some v.
Proof.
  induction d as [| [k' v'] d IH]; simpl.
  - by rewrite String.eqb_refl.
  - destruct (String.eqb k k') eqn:Hk; simpl; by rewrite ?String.eqb_refl, ?Hk.
Qed.

Lemma dict_get_set_ne {V} (k k' : string) (v : V) (d : list (string * V)) :
  k ≠ k' → dict_get k' (dict_set k v d) = dict_get k' d.
Proof.
  intros Hne. induction d as [| [k0 v0] d IH]; simpl.
  - apply String.eqb_neq in Hne. by rewrite String.eqb_sym, Hne.
  - destruct (String.eqb k k0) eqn:Hk; simpl.
    + apply String.eqb_eq in Hk as <-.
      assert (String.eqb k' k = false) as ->; [| done].
      apply String.eqb_neq. congruence.
    + by rewrite IH.
Qed.

Lemma no_char_app ch a b :
  no_char ch (a ++ b) = no_char ch a && no_char ch b.
Proof.
  induction a as [| c a IH]; simpl; [done |]. by rewrite IH, andb_assoc.
Qed.

Lemma keeps_self_bind {A B} (m : M A) (f : A → M B) :
  keeps_self m → (∀ a, keeps_self (f a)) → keeps_self (m ≫= f).
Proof.
  intros Hm Hf s. unfold mbind, M_bind. specialize (Hm s).
  destruct (m s) as [s' [a | e]]; simpl in *; [| done].
  by rewrite Hf.
Qed.

Lemma keeps_self_ret {A} (a : A) : keeps_self (mret a).
Proof. by intros s. Qed.

Lemma keeps_self_raise {A} (e : exn) : keeps_self (raise (A := A) e).
Proof. by intros s. Qed.

Lemma keeps_self_get_world : keeps_self get_world.
Proof. by intros s. Qed.

Lemma keeps_self_put_world w : keeps_self (put_world w).
Proof. by intros s. Qed.

Lemma keeps_self_effect : keeps_self effect.
Proof.
  intros s. unfold effect. by destruct (interrupt_after (world s)) as [[| n] |].
Qed.

Create HintDb keeps discriminated.
#[local] Hint Resolve keeps_self_ret keeps_self_raise keeps_self_get_world
  keeps_self_put_world keeps_self_effect : keeps.

Ltac keeps_self_tac :=
  repeat first
    [ apply keeps_self_bind; [| intros ? ]
    | progress auto with keeps
    | match goal with
      | |- keeps_self (match ?x with _ => _ end) => destruct x
      | |- keeps_self (if ?x then _ else _) => destruct x
      end ].

Lemma keeps_self_object_exists h : keeps_self (object_exists h).
Proof. unfold object_exists. keeps_self_tac. Qed.

Lemma keeps_self_copyfile src tmp : keeps_self (copyfile src tmp).
Proof. unfold copyfile. keeps_self_tac. Qed.

Lemma keeps_self_move tmp h : keeps_self (move tmp h).
Proof. unfold move. keeps_self_tac. Qed.

#[local] Hint Resolve keeps_self_object_exists keeps_self_copyfile
  keeps_self_move : keeps.

Lemma keeps_self_commit_object srcfile filehash :
  keeps_self (commit_object srcfile filehash).
Proof. unfold commit_object. keeps_self_tac. Qed.

Lemma save_file_unfold (E : Env) (srcfile name : string)
    (path : option string) (s : State) (bytes : string) :
  files (world s) !! srcfile = Some bytes →
  save_file E srcfile name path s
  = (_add_to_contents E (build_name name) [digest E bytes] "" path "file" None
       ≫= λ _, commit_object srcfile (digest E bytes)) s.
Proof.
  intros Hsrc. unfold save_file, digest_file, commit_object.
  unfold mbind, M_bind, get_world. simpl. rewrite Hsrc. reflexivity.
Qed.

Lemma descend_node_at (ipath : list string) (leaf : string) (node : Node)
    (ptr ptr' : Node) :
  descend ipath leaf (Ok node) ptr = (ptr', Ok tt) →
  node_at (ipath ++ [leaf]) ptr' = Some node.
Proof.
  revert ptr ptr'. induction ipath as [| name ipath IH]; intros ptr ptr'.
  - simpl. destruct ptr as [cs | |]; [| done..]. intros [= <-]. simpl.
    by rewrite dict_get_set_eq.
  - simpl. destruct ptr as [cs | |]; [| done..].
    destruct (descend ipath leaf (Ok node)
                (default (GroupNode []) (dict_get name cs)))
      as [child' r] eqn:Hd.
    intros [= <- ->]. simpl. rewrite dict_get_set_eq. simpl. by eapply IH.
Qed.

Lemma descend_raise_not_ok (ipath : list string) (leaf : string) (e : exn)
    (ptr : Node) :
  (descend ipath leaf (Raise e) ptr).2 ≠ Ok tt.
Proof.
  revert ptr. induction ipath as [| name ipath IH]; intros ptr; simpl.
  - done.
  - destruct ptr as [cs | |]; [| done..].
    specialize (IH (default (GroupNode []) (dict_get name cs))).
    by destruct (descend ipath leaf (Raise e)
                   (default (GroupNode []) (dict_get name cs))).
Qed.

Lemma pop_last_app (l : list string) :
  l ≠ [] → ((pop_last l).1 ++ [(pop_last l).2])%list = l.
Proof. intros Hl. unfold pop_last. simpl. symmetry. by apply app_removelast_last. Qed.

(** Where [_add_to_contents] puts its node when it returns: at the keys the
    full name splits into. *)
Lemma add_to_contents_node_at (E : Env) (s s' : State) (fullname : string)
    (hashes : list string) (ext : string) (path : option string)
    (target : string) (fmt : option PackageFormat) :
  _add_to_contents E fullname hashes ext path target fmt s = (s', Ok tt) →
  ∃ node,
    new_node E hashes
      [("q_ext", Some ext); ("q_path", path); ("q_target", Some target)]
      target fmt = Ok node
    ∧ node_at (split_on dot fullname) (_contents (self s')) = Some node.
Proof.
  unfold _add_to_contents. unfold_monad.
  pose proof (pop_last_app (split_on dot fullname) (split_on_not_nil _ _))
    as Hsplit.
  destruct (pop_last (split_on dot fullname)) as [ipath leaf]. simpl in Hsplit.
  destruct (new_node E hashes _ target fmt) as [node | e] eqn:Hnode.
  - destruct (descend ipath leaf (Ok node) (_contents (self s)))
      as [c r] eqn:Hd.
    intros [= <- ->]. exists node. split; [done |]. simpl.
    rewrite <- Hsplit. by eapply descend_node_at.
  - pose proof (descend_raise_not_ok ipath leaf e (_contents (self s))) as Hne.
    destruct (descend ipath leaf (Raise e) (_contents (self s))) as [c r].
    simpl in *. by intros [= _ ->].
Qed.

(** C9: a logical name with a dot in a segment is not stored under that
    segment.  [save_file] on the name a.b puts the file node at child b of
    a group a, created if the root has none, and leaves whatever the
    root holds under the key a.b as it was; [save_cached_df] does the same
    with its node.  For every name, the node that [_add_to_contents]
    inserts for it sits at the keys that the name, with its slashes turned
    into dots, is split into at every dot, and none of these keys has a
    dot or a slash. *)
Theorem dotted_segment_is_split (E : Env) (s : State) (srcfile a b : string)
    (path : option string) (bytes : string) (root ca : list (string * Node)) :
  TargetType_of E "file" = Some FILE →
  no_char dot a = true → no_char slash a = true →
  no_char dot b = true → no_char slash b = true →
  files (world s) !! srcfile = Some bytes →
  _contents (self s) = GroupNode root →
  default (GroupNode []) (dict_get a root) = GroupNode ca →
  let name := a ++ "." ++ b in
  let leaf :=
    FileNode [digest E bytes]
      [("q_ext", Some ""); ("q_path", path); ("q_target", Some "file")] in
  let root' := dict_set a (GroupNode (dict_set b leaf ca)) root in
  _contents (self (save_file E srcfile name path s).1) = GroupNode root'
  ∧ dict_get a root' = Some (GroupNode (dict_set b leaf ca))
  ∧ dict_get b (dict_set b leaf ca) = Some leaf
  ∧ dict_get name root' = dict_get name root
  ∧ (∀ hashes ext target fmt node,
       new_node E hashes
         [("q_ext", Some ext); ("q_path", path); ("q_target", Some target)]
         target fmt = Ok node →
       save_cached_df E hashes name path ext target fmt s
       = (with_contents
            (GroupNode (dict_set a (GroupNode (dict_set b node ca)) root)) s,
          Ok tt))
  ∧ (∀ (any : string) (s0 s1 : State) hashes ext path0 target fmt,
       _add_to_contents E (build_name any) hashes ext path0 target fmt s0
       = (s1, Ok tt) →
       ∃ node,
         new_node E hashes
           [("q_ext", Some ext); ("q_path", path0); ("q_target", Some target)]
           target fmt = Ok node
         ∧ node_at (split_on dot (build_name any)) (_contents (self s1))
           = Some node)
  ∧ (∀ any : string,
       Forall (λ k, no_char dot k = true ∧ no_char slash k = true)
         (split_on dot (build_name any))).
Proof.
  intros Hfile Ha Ha' Hb Hb' Hsrc Hroot Hca name leaf root'.
  split_and!.
  - rewrite (save_file_unfold E _ _ _ _ _ Hsrc).
    unfold name. rewrite build_name_dotted by done.
    erewrite bind_ok.
    2:{ apply add_to_contents_dotted with (node := leaf); try done.
        unfold new_node. by rewrite Hfile. }
    by rewrite keeps_self_commit_object.
  - apply dict_get_set_eq.
  - apply dict_get_set_eq.
  - apply dict_get_set_ne. unfold name. intros Heq.
    assert (no_char dot (a ++ "." ++ b) = true) as Hno by by rewrite <- Heq.
    rewrite !no_char_app in Hno. simpl in Hno.
    by rewrite andb_false_r in Hno.
  - intros hashes ext target fmt node Hnode. unfold save_cached_df, name.
    rewrite build_name_dotted by done. by apply add_to_contents_dotted.
  - intros any s0 s1 hashes ext path0 target fmt.
    apply add_to_contents_node_at.
  - intros any. apply Forall_and. split.
    + apply split_on_keys_no_sep.
    + apply split_on_keeps_no_char. unfold build_name.
      apply replace_slash_dot_no_slash_after.
Qed.

Lemma dotted_segment_is_split_witness :
  _contents (self (save_file test_env "a.txt" "data.csv" None
                     empty_package).1)
  = GroupNode
      [("data",
        GroupNode
          [("csv",
            FileNode ["sha256:alpha"]
              [("q_ext", Some ""); ("q_path", None);
               ("q_target", Some "file")])])].
Proof.
  apply (dotted_segment_is_split test_env empty_package "a.txt" "data" "csv"
           None "alpha" [] []); reflexivity.
Defined.

(** ** [save_file]: hash, insert, commit *)

Lemma add_to_contents_world (E : Env) fullname hashes ext path target fmt s :
  world (_add_to_contents E fullname hashes ext path target fmt s).1 = world s.
Proof.
  unfold _add_to_contents. unfold_monad.
  destruct (pop_last (split_on dot fullname)) as [ipath leaf].
  by destruct (descend ipath leaf _ (_contents (self s))) as [c [[] | e]].
Qed.

Lemma commit_object_present srcfile h s :
  is_Some (objects (world s) !! h) → commit_object srcfile h s = (s, Ok tt).
Proof.
  intros Hh. unfold commit_object. erewrite bind_ok by apply object_exists_eq.
  by rewrite bool_decide_true.
Qed.

Lemma commit_object_ok srcfile h s s' :
  commit_object srcfile h s = (s', Ok tt) →
  is_Some (objects (world s') !! h).
Proof.
  unfold commit_object. erewrite bind_ok by apply object_exists_eq.
  case_bool_decide as Hh; simpl; [by intros [= <-] |].
  destruct s as [p w]. unfold copyfile, move, effect. unfold_monad. simpl.
  destruct (files w !! srcfile) as [bytes |]; [| done].
  destruct (store_writable w) eqn:Hw; simpl; [| done].
  destruct (interrupt_after w) as [[| [| [| n]]] |] eqn:Hi;
    repeat (simpl; rewrite ?Hi, ?Hw, ?lookup_insert_eq); try done;
    intros [= <-]; simpl; rewrite lookup_insert_eq; eauto.
Qed.

Lemma commit_object_writes srcfile h s bytes :
  files (world s) !! srcfile = Some bytes →
  objects (world s) !! h = None →
  store_writable (world s) = true →
  interrupt_after (world s) = None →
  ∃ s', commit_object srcfile h s = (s', Ok tt)
        ∧ self s' = self s
        ∧ objects (world s') = <[h := bytes]> (objects (world s))
        ∧ tmp_objects (world s') !! h = None.
Proof.
  intros Hsrc Hh Hw Hi. unfold commit_object.
  erewrite bind_ok by apply object_exists_eq.
  rewrite bool_decide_false by (rewrite Hh; by intros [? ?]).
  destruct s as [p w]. unfold copyfile, move, effect. unfold_monad.
  simpl in *. repeat (simpl; rewrite ?Hsrc, ?Hw, ?Hi, ?lookup_insert_eq).
  eexists. split; [reflexivity |]. simpl. split_and!; [done.. |].
  apply lookup_delete_eq.
Qed.

(** C8, as the code has it: [save_file] hashes the source, inserts the file
    node into the in-memory tree, and only then commits the object to the
    store (a copy to the temporary path, then one move to the permanent
    path, skipped when the object is already there).  When the hashing or
    the insertion fails the store is untouched; when [save_file] returns
    normally the inserted hash has its object in the store. *)
Theorem save_file_inserts_then_commits (E : Env) (s : State)
    (srcfile name : string) (path : option string) :
  (files (world s) !! srcfile = None →
     save_file E srcfile name path s = (s, Raise IOError))
  ∧ (∀ bytes, files (world s) !! srcfile = Some bytes →
       let h := digest E bytes in
       let add :=
         _add_to_contents E (build_name name) [h] "" path "file" None in
       save_file E srcfile name path s
       = (add ≫= λ _, commit_object srcfile h) s
       ∧ (∀ e, (add s).2 = Raise e →
            save_file E srcfile name path s = add s
            ∧ world (add s).1 = world s)
       ∧ ((add s).2 = Ok tt → is_Some (objects (world s) !! h) →
            save_file E srcfile name path s = add s)
       ∧ ((add s).2 = Ok tt → objects (world s) !! h = None →
            store_writable (world s) = true →
            interrupt_after (world s) = None →
            ∃ s', save_file E srcfile name path s = (s', Ok tt)
                  ∧ self s' = self (add s).1
                  ∧ objects (world s') = <[h := bytes]> (objects (world s))
                  ∧ tmp_objects (world s') !! h = None)
       ∧ (∀ s', save_file E srcfile name path s = (s', Ok tt) →
            is_Some (objects (world s') !! h) ∧ self s' = self (add s).1)).
Proof.
  split.
  - intros Hsrc. unfold save_file, digest_file. unfold_monad. simpl.
    by rewrite Hsrc.
  - intros bytes Hsrc h add.
    pose proof (save_file_unfold E srcfile name path s bytes Hsrc) as Hsave.
    fold h in Hsave. fold add in Hsave.
    pose proof (add_to_contents_world E (build_name name) [h] "" path "file"
                  None s) as Hworld.
    fold add in Hworld.
    split_and!.
    + done.
    + intros e He. rewrite Hsave. unfold mbind, M_bind.
      destruct (add s) as [s1 r]; simpl in *. by subst r.
    + intros Hok Hh. rewrite Hsave. unfold mbind, M_bind.
      destruct (add s) as [s1 r]; simpl in *. subst r.
      rewrite commit_object_present; [done |]. by rewrite Hworld.
    + intros Hok Hh Hw Hi. rewrite Hsave. unfold mbind, M_bind.
      destruct (add s) as [s1 r]; simpl in *. subst r.
      destruct (commit_object_writes srcfile h s1 bytes)
        as (s' & Hc & Hself & Hobj & Htmp); try by rewrite Hworld.
      exists s'. by rewrite Hc, Hself, Hobj, Hworld.
    + intros s'. rewrite Hsave. unfold mbind, M_bind.
      destruct (add s) as [s1 [[] | e]]; simpl in *; [| done].
      intros Hc. split; [by eapply commit_object_ok |].
      pose proof (keeps_self_commit_object srcfile h s1) as Hk.
      by rewrite Hc in Hk.
Qed.

Lemma save_file_inserts_then_commits_witness :
  ∃ s', save_file test_env "a.txt" "reports/a" (Some "a.txt") empty_package
        = (s', Ok tt)
        ∧ objects (world s') = <[ "sha256:alpha" := "alpha" ]> ∅
        ∧ tmp_objects (world s') !! "sha256:alpha" = None.
Proof.
  destruct (proj2 (save_file_inserts_then_commits test_env empty_package
                     "a.txt" "reports/a" (Some "a.txt")) "alpha" eq_refl)
    as (_ & _ & _ & Hcommit & _).
  destruct (Hcommit eq_refl eq_refl eq_refl eq_refl)
    as (s' & Hs' & _ & Hobj & Htmp).
  exists s'. split_and!; [exact Hs' | exact Hobj | exact Htmp].
Defined.

(** C8, the claim as written, fails: with a store that refuses the write,
    [save_file] raises after the tree has changed, and the new file node
    names an object the store does not have. *)
Lemma save_file_failure_keeps_inserted_node :
  let s := with_world readonly_store_world empty_package in
  let s' := (save_file test_env "a.txt" "a" None s).1 in
  (save_file test_env "a.txt" "a" None s).2 = Raise IOError
  ∧ _contents (self s) = GroupNode []
  ∧ _contents (self s')
    = GroupNode
        [("a", FileNode ["sha256:alpha"]
                 [("q_ext", Some ""); ("q_path", None);
                  ("q_target", Some "file")])]
  ∧ objects (world s') !! "sha256:alpha" = None.
Proof. split_and!; reflexivity. Qed.

(** ** [save_contents]: the snapshot, then the tag *)

(** Every way [save_contents] can end, by the number of file-system
    effects the build is allowed before it is interrupted. *)
Lemma save_contents_outcome (E : Env) (s : State)
    (cd : gmap string (option json)) :
  contents_dir (world s) = Some cd →
  let H := hash_contents E (_contents (self s)) in
  let doc := json_dump E (_contents (self s)) in
  let w := world s in
  let s' := (save_contents E s).1 in
  let r := (save_contents E s).2 in
  self s' = self s
  ∧ match interrupt_after w with
    | Some 0 =>
        r = Raise KeyboardInterrupt
        ∧ contents_dir (world s') = Some cd
        ∧ tags_dir (world s') = tags_dir w
    | Some 1 =>
        r = Raise KeyboardInterrupt
        ∧ contents_dir (world s') = Some (<[H := None]> cd)
        ∧ tags_dir (world s') = tags_dir w
    | Some (S (S k)) =>
        contents_dir (world s') = Some (<[H := Some doc]> (<[H := None]> cd))
        ∧ match tags_dir w, k with
          | Some td, 0 => r = Raise KeyboardInterrupt
                          ∧ tags_dir (world s') = Some td
          | Some td, 1 => r = Raise KeyboardInterrupt
                          ∧ tags_dir (world s') = Some (<[LATEST := ""]> td)
          | Some td, _ =>
              r = Ok tt
              ∧ tags_dir (world s')
                = Some (<[LATEST := H]> (<[LATEST := ""]> td))
          | None, 0 => r = Raise KeyboardInterrupt
                       ∧ tags_dir (world s') = None
          | None, 1 => r = Raise KeyboardInterrupt
                       ∧ tags_dir (world s') = Some ∅
          | None, 2 => r = Raise KeyboardInterrupt
                       ∧ tags_dir (world s') = Some (<[LATEST := ""]> ∅)
          | None, _ =>
              r = Ok tt
              ∧ tags_dir (world s')
                = Some (<[LATEST := H]> (<[LATEST := ""]> ∅))
          end
    | None =>
        r = Ok tt
        ∧ contents_dir (world s') = Some (<[H := Some doc]> (<[H := None]> cd))
        ∧ tags_dir (world s')
          = Some (<[LATEST := H]> (<[LATEST := ""]> (default ∅ (tags_dir w))))
    end.
Proof.
  intros Hcd H doc w s' r. subst s' r w.
  destruct s as [p w]. simpl in *.
  unfold save_contents, get_hash, open_contents_file, write_contents_file,
    tags_isdir, tags_mkdir, open_tag_file, write_tag_file, effect.
  unfold_monad. simpl. rewrite Hcd. fold H. fold doc.
  destruct (tags_dir w) as [td |] eqn:Htd;
    destruct (interrupt_after w) as [[| [| [| [| [| n]]]]] |] eqn:Hi;
    repeat (simpl; rewrite ?Hi, ?Htd, ?Hcd); try done.
  all: try (rewrite bool_decide_true by eauto).
  all: try (rewrite bool_decide_false by (by intros [? ?])).
  all: repeat (simpl; rewrite ?Hi, ?Htd, ?Hcd); done.
Qed.

(** C4, as the code has it: [save_contents] writes the serialised tree
    under the hash of the tree before it opens the tag file "latest".
    However the call ends, the tag reads what it read before, or nothing
    while its file is open, or the new hash, and a tag that no longer
    reads what it read before finds the new snapshot completely written.
    After a normal return the tag reads exactly the hash of the in-memory
    contents; without interruption the call returns normally; an
    interruption before the tag file is opened leaves the tag as it was,
    with, once the snapshot has been written, the new snapshot complete
    and every other snapshot untouched; and an interruption between the
    opening of the tag file and the write of the hash leaves the tag
    empty. *)
Theorem save_contents_snapshot_before_tag (E : Env) (s : State)
    (cd : gmap string (option json)) :
  contents_dir (world s) = Some cd →
  let H := hash_contents E (_contents (self s)) in
  let doc := json_dump E (_contents (self s)) in
  let s' := (save_contents E s).1 in
  let r := (save_contents E s).2 in
  (read_tag LATEST (world s') ≠ read_tag LATEST (world s) →
     read_contents H (world s') = Some (Some doc))
  ∧ (read_tag LATEST (world s') = read_tag LATEST (world s)
     ∨ read_tag LATEST (world s') = Some ""
     ∨ read_tag LATEST (world s') = Some H)
  ∧ (r = Ok tt →
       read_tag LATEST (world s') = Some H
       ∧ read_contents H (world s') = Some (Some doc)
       ∧ _contents (self s') = _contents (self s))
  ∧ (interrupt_after (world s) = None → r = Ok tt)
  ∧ (∀ n, interrupt_after (world s) = Some n →
       (n ≤ match tags_dir (world s) with Some _ => 2 | None => 3 end)%nat →
       r = Raise KeyboardInterrupt
       ∧ read_tag LATEST (world s') = read_tag LATEST (world s)
       ∧ ((2 ≤ n)%nat →
            read_contents H (world s') = Some (Some doc)
            ∧ ∀ h, h ≠ H →
                read_contents h (world s') = read_contents h (world s)))
  ∧ (interrupt_after (world s)
     = Some (match tags_dir (world s) with Some _ => 3 | None => 4 end) →
     r = Raise KeyboardInterrupt
     ∧ read_tag LATEST (world s') = Some ""
     ∧ read_contents H (world s') = Some (Some doc)).
Proof.
  intros Hcd H doc s' r.
  destruct (save_contents_outcome E s cd Hcd) as [Hself Hout].
  fold H doc s' r in Hself, Hout. unfold read_tag, read_contents.
  assert (∀ c, c = Some (<[H := Some doc]> (<[H := None]> cd)) →
               c ≫= (λ d, d !! H) = Some (Some doc)) as Hsnap.
  { intros c ->. simpl. by rewrite lookup_insert_eq. }
  destruct (interrupt_after (world s)) as [[| [| k]] |] eqn:Hi.
  - destruct Hout as (Hr & Hc & Ht). rewrite Ht, Hr.
    split_and!; [done | by left | done | done | | by destruct (tags_dir (world s)); simpl; intros [=]].
    intros n [= <-] _. split_and!; [done | done | lia].
  - destruct Hout as (Hr & Hc & Ht). rewrite Ht, Hr.
    split_and!; [done | by left | done | done | | by destruct (tags_dir (world s)); simpl; intros [=]].
    intros n [= <-] _. split_and!; [done | done | lia].
  - destruct Hout as (Hc & Hout). specialize (Hsnap _ Hc).
    assert (∀ h, h ≠ H →
              contents_dir (world s') ≫= (λ d, d !! h)
              = contents_dir (world s) ≫= (λ d, d !! h)) as Hother.
    { intros h Hh. rewrite Hc, Hcd. simpl. by rewrite !lookup_insert_ne. }
    split_and!; [done | | | done | |].
    + destruct (tags_dir (world s)) as [td |];
        destruct k as [| [| [| k]]]; destruct Hout as [Hr' Ht];
        rewrite Ht; simpl; rewrite ?lookup_insert_eq, ?lookup_empty; auto.
    + intros Hr. split_and!; [| done | by rewrite Hself].
      destruct (tags_dir (world s)) as [td |];
        destruct k as [| [| [| k]]]; destruct Hout as [Hr' Ht];
        try congruence; rewrite Ht; simpl; by rewrite lookup_insert_eq.
    + intros n [= <-] Hhi.
      destruct (tags_dir (world s)) as [td |] eqn:Htd.
      * assert (k = 0) as -> by lia. destruct Hout as [Hr Ht].
        by rewrite Ht.
      * destruct k as [| [| k]]; [| | lia]; destruct Hout as [Hr Ht];
          by rewrite Ht.
    + destruct (tags_dir (world s)) as [td |]; intros [= ->];
        destruct Hout as [Hr Ht]; rewrite Ht; simpl;
        by rewrite lookup_insert_eq.
  - destruct Hout as (Hr & Hc & Ht). specialize (Hsnap _ Hc).
    split_and!; [done | | | done | done | by destruct (tags_dir (world s)); simpl; intros [=]].
    + right. right. rewrite Ht. simpl. by rewrite lookup_insert_eq.
    + intros _. rewrite Ht. simpl. rewrite lookup_insert_eq.
      split_and!; [done | done | by rewrite Hself].
Qed.

Lemma save_contents_snapshot_before_tag_witness :
  ((save_contents test_env empty_package).2 = Ok tt
   ∧ read_tag LATEST (world (save_contents test_env empty_package).1)
     = Some (hash_contents test_env (GroupNode [])))
  ∧ (let s := with_world interrupted_world empty_package in
     (save_contents test_env s).2 = Raise KeyboardInterrupt
     ∧ read_tag LATEST (world (save_contents test_env s).1) = Some "old"
     ∧ read_contents (hash_contents test_env (GroupNode []))
         (world (save_contents test_env s).1)
       = Some (Some (json_dump test_env (GroupNode [])))).
Proof.
  split.
  - destruct (save_contents_snapshot_before_tag test_env empty_package ∅
                eq_refl) as (_ & _ & Hok & Hrun & _ & _).
    split; [exact (Hrun eq_refl) |].
    exact (proj1 (Hok (Hrun eq_refl))).
  - intros s.
    destruct (save_contents_snapshot_before_tag test_env s ∅ eq_refl)
      as (_ & _ & _ & _ & Hbefore & _).
    destruct (Hbefore 2 eq_refl (le_n 2)) as (Hr & Htag & Hsnap).
    destruct (Hsnap (le_n 2)) as [Hdoc _].
    split_and!; [exact Hr | | exact Hdoc].
    etrans; [exact Htag | reflexivity].
Defined.

(** C4, the claim as written, fails twice.  Interrupted between the write
    of the snapshot and the write of the hash, after the tag file has been
    opened, [save_contents] leaves a tag that read "old" empty.  And
    interrupted while it writes again the snapshot the tag already names,
    it leaves the tag naming a snapshot that is not written. *)
Lemma save_contents_interruption_hurts_tag :
  (let s := with_world tag_open_world empty_package in
   let s' := (save_contents test_env s).1 in
   (save_contents test_env s).2 = Raise KeyboardInterrupt
   ∧ read_contents (hash_contents test_env (GroupNode [])) (world s')
     = Some (Some (json_dump test_env (GroupNode [])))
   ∧ read_tag LATEST (world s) = Some "old"
   ∧ read_tag LATEST (world s') = Some "")
  ∧ (let s := with_world resave_world empty_package in
     let s' := (save_contents test_env s).1 in
     (save_contents test_env s).2 = Raise KeyboardInterrupt
     ∧ read_tag LATEST (world s) = Some (hash_contents test_env (GroupNode []))
     ∧ read_contents (hash_contents test_env (GroupNode [])) (world s)
       = Some (Some (json_dump test_env (GroupNode [])))
     ∧ read_tag LATEST (world s') = Some (hash_contents test_env (GroupNode []))
     ∧ read_contents (hash_contents test_env (GroupNode [])) (world s')
       = Some None).
Proof. split; split_and!; reflexivity. Qed.

(** ** Dictionaries and their sorted form *)

#[global] Instance key_le_trans {V : Type} : Transitive (@key_le V).
Proof. intros x y z. unfold key_le. apply transitivity. Qed.

#[global] Instance key_le_total {V : Type} : Total (@key_le V).
Proof. intros x y. unfold key_le. apply total, _. Qed.

Lemma dict_get_elem {V} (k : string) (v : V) (d : list (string * V)) :
  dict_get k d = Some v → (k, v) ∈ d.
Proof.
  induction d as [| [k' v'] d IH]; simpl; [done |].
  destruct (String.eqb k k') eqn:Hk.
  - apply String.eqb_eq in Hk as ->. intros [= ->]. left.
  - intros Hd. right. auto.
Qed.

Lemma dict_get_not_key {V} (k : string) (d : list (string * V)) :
  k ∉ dict_keys d → dict_get k d = None.
Proof.
  induction d as [| [k' v'] d IH]; simpl; [done |].
  intros Hk. apply not_elem_of_cons in Hk as [Hne Hk].
  apply String.eqb_neq in Hne. rewrite Hne. auto.
Qed.

Lemma elem_dict_keys {V} (k : string) (v : V) (d : list (string * V)) :
  (k, v) ∈ d → k ∈ dict_keys d.
Proof.
  intros Hin. unfold dict_keys. apply list_elem_of_fmap. by exists (k, v).
Qed.

Lemma elem_dict_get {V} (k : string) (v : V) (d : list (string * V)) :
  NoDup (dict_keys d) → (k, v) ∈ d → dict_get k d = Some v.
Proof.
  induction d as [| [k' v'] d IH]; simpl; [by inversion 2 |].
  intros [Hnotin Hnd]%NoDup_cons Hin.
  apply elem_of_cons in Hin as [[= -> ->] | Hin].
  - by rewrite String.eqb_refl.
  - destruct (String.eqb k k') eqn:Hk; [| auto].
    apply String.eqb_eq in Hk as ->. destruct Hnotin.
    by eapply elem_dict_keys.
Qed.

Lemma dict_keys_set {V} (k : string) (v : V) (d : list (string * V)) :
  dict_keys (dict_set k v d)
  = if bool_decide (k ∈ dict_keys d) then dict_keys d else (dict_keys d ++ [k])%list.
Proof.
  induction d as [| [k' v'] d IH]; simpl; [done |].
  destruct (String.eqb k k') eqn:Hk.
  - apply String.eqb_eq in Hk as ->. simpl.
    by rewrite bool_decide_true by left.
  - apply String.eqb_neq in Hk. simpl. rewrite IH.
    destruct (bool_decide (k ∈ dict_keys d)) eqn:Hd.
    + apply bool_decide_eq_true in Hd. by rewrite bool_decide_true by by right.
    + apply bool_decide_eq_false in Hd.
      rewrite bool_decide_false; [done |].
      by intros [? | ?]%elem_of_cons.
Qed.

Lemma dict_set_NoDup {V} (k : string) (v : V) (d : list (string * V)) :
  NoDup (dict_keys d) → NoDup (dict_keys (dict_set k v d)).
Proof.
  intros Hnd. rewrite dict_keys_set. case_bool_decide as Hk; [done |].
  apply NoDup_app. split_and!; [done | | apply NoDup_singleton].
  intros x Hx ->%list_elem_of_singleton. done.
Qed.

Lemma dict_set_elem {V} (k : string) (v : V) (d : list (string * V)) x :
  x ∈ dict_set k v d → x = (k, v) ∨ x ∈ d.
Proof.
  induction d as [| [k' v'] d IH]; simpl.
  - intros ->%list_elem_of_singleton. by left.
  - destruct (String.eqb k k').
    + intros [-> | Hx]%elem_of_cons; [by left | right; by right].
    + intros [-> | Hx]%elem_of_cons; [right; left |].
      destruct (IH Hx); [by left | right; by right].
Qed.

(** Two dictionaries with the same entries sort to the same list. *)
Lemma sort_keys_unique {V} (l1 l2 : list (string * V)) :
  NoDup (dict_keys l1) → l1 ≡ₚ l2 → sort_keys l1 = sort_keys l2.
Proof.
  intros Hnd Hperm. unfold sort_keys.
  apply (StronglySorted_unique_strong key_le).
  - intros [k1 v1] [k2 v2] H1 H2 Hle1 Hle2. unfold key_le in *. simpl in *.
    assert (k1 = k2) as -> by by apply (anti_symm String.le).
    f_equal.
    rewrite merge_sort_Permutation in H1, H2. rewrite <- Hperm in H2.
    apply (elem_dict_get _ _ _ Hnd) in H1, H2. congruence.
  - apply StronglySorted_merge_sort; apply _.
  - apply StronglySorted_merge_sort; apply _.
  - by rewrite !merge_sort_Permutation.
Qed.

Lemma dict_same_entries_perm {V} (l1 l2 : list (string * V)) :
  NoDup (dict_keys l1) → length l1 = length l2 →
  (∀ x, x ∈ l1 → x ∈ l2) → l1 ≡ₚ l2.
Proof.
  intros Hnd Hlen Hsub.
  apply submseteq_length_Permutation; [| lia].
  apply NoDup_submseteq; [| done].
  unfold dict_keys in Hnd. by apply NoDup_fmap_1 in Hnd.
Qed.

(** ** The content hash forgets the build order *)

Lemma metadata_eqb_perm (m1 m2 : Metadata) :
  NoDup (dict_keys m1) → metadata_eqb m1 m2 = true → m1 ≡ₚ m2.
Proof.
  intros Hnd [Hlen Hall]%andb_prop.
  apply Nat.eqb_eq in Hlen. rewrite forallb_forall in Hall.
  apply dict_same_entries_perm; [done | done |].
  intros [k v] Hin. apply list_elem_of_In in Hin. specialize (Hall _ Hin).
  apply bool_decide_eq_true in Hall. by apply dict_get_elem.
Qed.

Lemma metadata_tokens_eq (m1 m2 : Metadata) :
  NoDup (dict_keys m1) → metadata_eqb m1 m2 = true →
  metadata_tokens m1 = metadata_tokens m2.
Proof.
  intros Hnd Heq. pose proof (metadata_eqb_perm _ _ Hnd Heq) as Hperm.
  unfold metadata_tokens.
  by rewrite (sort_keys_unique _ _ Hnd Hperm), (Permutation_length Hperm).
Qed.

Lemma dict_keys_map_snd {V W} (f : V → W) (d : list (string * V)) :
  dict_keys (map (λ kv, (kv.1, f kv.2)) d) = dict_keys d.
Proof. unfold dict_keys. rewrite map_map. by apply map_ext. Qed.

Lemma canonical_eq (a b : Node) :
  is_dict_tree a = true → is_dict_tree b = true → node_eqb a b = true →
  canonical a = canonical b.
Proof.
  revert b. induction a as [c1 IH | h1 f1 m1 | h1 m1] using Node_ind';
    intros [c2 | h2 f2 m2 | h2 m2]; simpl; try done.
  - intros [Hnd1 Hwf1]%andb_prop [Hnd2 Hwf2]%andb_prop [Hlen Hall]%andb_prop.
    apply bool_decide_eq_true in Hnd1, Hnd2. apply Nat.eqb_eq in Hlen.
    rewrite forallb_forall in Hwf1, Hwf2, Hall. rewrite Forall_forall in IH.
    rewrite Hlen. do 4 f_equal.
    apply sort_keys_unique; [by rewrite dict_keys_map_snd |].
    apply dict_same_entries_perm.
    + by rewrite dict_keys_map_snd.
    + by rewrite !length_map.
    + intros x [[k v] [-> Hin]]%list_elem_of_fmap. simpl.
      pose proof Hin as Hin'. apply list_elem_of_In in Hin'.
      specialize (Hall _ Hin'). simpl in Hall.
      destruct (dict_get k c2) as [w |] eqn:Hw; [| done].
      apply dict_get_elem in Hw.
      assert (is_dict_tree w = true) as Hwfw.
      { apply (Hwf2 (k, w)). by apply list_elem_of_In. }
      pose proof (IH _ Hin w (Hwf1 _ Hin') Hwfw Hall) as Hc.
      simpl in Hc. rewrite Hc.
      apply list_elem_of_fmap. by exists (k, w).
  - intros Hnd1%bool_decide_eq_true _ [[Hh Hf]%andb_prop Hm]%andb_prop.
    apply bool_decide_eq_true in Hh as ->. apply String.eqb_eq in Hf as ->.
    by rewrite (metadata_tokens_eq _ _ Hnd1 Hm).
  - intros Hnd1%bool_decide_eq_true _ [Hh Hm]%andb_prop.
    apply bool_decide_eq_true in Hh as ->.
    by rewrite (metadata_tokens_eq _ _ Hnd1 Hm).
Qed.

Lemma is_dict_tree_group (cs : list (string * Node)) :
  is_dict_tree (GroupNode cs) = true
  ↔ NoDup (dict_keys cs) ∧ ∀ kv, kv ∈ cs → is_dict_tree kv.2 = true.
Proof.
  simpl. rewrite andb_true_iff, bool_decide_eq_true, forallb_forall.
  split; intros [Hnd Hall]; (split; [done |]); intros kv Hkv; apply Hall;
    by apply list_elem_of_In.
Qed.

Lemma group_set_dict_tree (cs : list (string * Node)) (k : string) (n : Node) :
  is_dict_tree (GroupNode cs) = true → is_dict_tree n = true →
  is_dict_tree (GroupNode (dict_set k n cs)) = true.
Proof.
  rewrite !is_dict_tree_group. intros [Hnd Hall] Hn. split.
  - by apply dict_set_NoDup.
  - intros kv [-> | Hin]%dict_set_elem; [done | by apply Hall].
Qed.

Lemma child_dict_tree (cs : list (string * Node)) (name : string) :
  is_dict_tree (GroupNode cs) = true →
  is_dict_tree (default (GroupNode []) (dict_get name cs)) = true.
Proof.
  rewrite is_dict_tree_group. intros [_ Hall].
  destruct (dict_get name cs) as [n |] eqn:Hn; simpl.
  - by apply (Hall (name, n)), dict_get_elem.
  - reflexivity.
Qed.

Lemma descend_dict_tree (ipath : list string) (leaf : string)
    (mk : result Node) (ptr : Node) :
  is_dict_tree ptr = true →
  (∀ n, mk = Ok n → is_dict_tree n = true) →
  is_dict_tree (descend ipath leaf mk ptr).1 = true.
Proof.
  intros Hptr Hmk. revert ptr Hptr.
  induction ipath as [| name ipath IH]; intros ptr Hptr; simpl.
  - destruct mk as [node | e]; [| done].
    destruct ptr as [cs | |]; [| done..].
    apply group_set_dict_tree; auto.
  - destruct ptr as [cs | |]; [| done..].
    specialize (IH _ (child_dict_tree cs name Hptr)).
    destruct (descend ipath leaf mk (default (GroupNode []) (dict_get name cs)))
      as [child' r].
    by apply group_set_dict_tree.
Qed.

Lemma new_node_dict_tree (E : Env) hashes ext path target fmt n :
  new_node E hashes
    [("q_ext", Some ext); ("q_path", path); ("q_target", Some target)]
    target fmt = Ok n →
  is_dict_tree n = true.
Proof.
  unfold new_node.
  destruct (TargetType_of E target) as [[| |] |]; [| | | done].
  - destruct fmt; [| done]. by intros [= <-].
  - by intros [= <-].
  - by intros [= <-].
Qed.

Lemma preserves_bind {A B} (P : State → Prop) (m : M A) (f : A → M B) :
  preserves P m → (∀ a, preserves P (f a)) → preserves P (m ≫= f).
Proof.
  intros Hm Hf s Hs. unfold mbind, M_bind. specialize (Hm s Hs).
  destruct (m s) as [s' [a | e]]; simpl in *; [| done]. by apply Hf.
Qed.

Lemma keeps_self_preserves {A} (m : M A) :
  keeps_self m → preserves dict_state m.
Proof. intros Hm s Hs. unfold dict_state. by rewrite Hm. Qed.

Lemma add_to_contents_preserves (E : Env) fullname hashes ext path target fmt :
  preserves dict_state
    (_add_to_contents E fullname hashes ext path target fmt).
Proof.
  intros s Hs. unfold dict_state, _add_to_contents in *. unfold_monad.
  destruct (pop_last (split_on dot fullname)) as [ipath leaf].
  pose proof (descend_dict_tree ipath leaf
    (new_node E hashes
       [("q_ext", Some ext); ("q_path", path); ("q_target", Some target)]
       target fmt) _ Hs (new_node_dict_tree E hashes ext path target fmt))
    as Hd.
  by destruct (descend ipath leaf _ (_contents (self s))) as [c [[] | e]].
Qed.

Lemma save_package_tree_preserves name pkgnode :
  is_dict_tree pkgnode = true →
  preserves dict_state (save_package_tree name pkgnode).
Proof.
  intros Hpkg s Hs. unfold dict_state, save_package_tree in *. unfold_monad.
  destruct (String.eqb name ""); cbn [negb].
  - destruct (_contents (self s)) as [[| kv cs] | |] eqn:Hc; simpl;
      rewrite ?Hc; try done.
    destruct pkgnode; simpl; by rewrite ?Hc.
  - destruct (pop_last (split_on slash name)) as [ipath leaf].
    assert (∀ n, Ok pkgnode = Ok n → is_dict_tree n = true) as Hmk
      by by intros n [= <-].
    pose proof (descend_dict_tree ipath leaf (Ok pkgnode) _ Hs Hmk) as Hd.
    by destruct (descend ipath leaf _ (_contents (self s))) as [c [[] | e]].
Qed.

Lemma run_op_preserves (E : Env) (o : save_op) :
  op_ok o = true → preserves dict_state (run_op E o).
Proof.
  destruct o as [name | srcfile name path | hashes name path ext target fmt
                | name pkgnode | fullname hashes ext path target fmt];
    simpl; intros Hok.
  - unfold save_group. destruct (String.eqb (build_name name) ""); simpl.
    + by intros s.
    + apply add_to_contents_preserves.
  - unfold save_file. apply preserves_bind.
    { apply keeps_self_preserves. unfold digest_file. keeps_self_tac. }
    intros filehash. apply preserves_bind.
    { apply add_to_contents_preserves. }
    intros _. apply keeps_self_preserves. keeps_self_tac.
  - apply add_to_contents_preserves.
  - by apply save_package_tree_preserves.
  - apply add_to_contents_preserves.
Qed.

Lemma run_ops_preserves (E : Env) (ops : list save_op) (s : State) :
  forallb op_ok ops = true → dict_state s → dict_state (run_ops E ops s).
Proof.
  revert s. induction ops as [| o ops IH]; intros s; simpl; [done |].
  intros [Ho Hops]%andb_prop Hs. apply IH; [done |].
  by apply run_op_preserves.
Qed.

(** C1: two packages whose contents were built by any two sequences of
    save operations and are structurally and data-identical have the same
    [get_hash]: the hash does not depend on the order of construction. *)
Theorem get_hash_ignores_build_order (E : Env) (ops1 ops2 : list save_op)
    (s1 s2 : State) :
  dict_state s1 → dict_state s2 →
  forallb op_ok ops1 = true → forallb op_ok ops2 = true →
  node_eqb (_contents (self (run_ops E ops1 s1)))
           (_contents (self (run_ops E ops2 s2))) = true →
  (get_hash E (run_ops E ops1 s1)).2 = (get_hash E (run_ops E ops2 s2)).2.
Proof.
  intros Hs1 Hs2 Hops1 Hops2 Heq. unfold get_hash. unfold_monad. simpl.
  unfold hash_contents. do 2 f_equal.
  apply canonical_eq; [| | done].
  - by apply (run_ops_preserves E ops1 s1).
  - by apply (run_ops_preserves E ops2 s2).
Qed.

Lemma get_hash_ignores_build_order_witness :
  let ops1 := [SaveFile "a.txt" "reports/a" None;
               SaveFile "b.txt" "data/b" None] in
  let ops2 := [SaveGroup "data"; SaveFile "b.txt" "data/b" None;
               SaveFile "a.txt" "reports/a" None] in
  _contents (self (run_ops test_env ops1 empty_package))
  ≠ _contents (self (run_ops test_env ops2 empty_package))
  ∧ (get_hash test_env (run_ops test_env ops1 empty_package)).2
    = (get_hash test_env (run_ops test_env ops2 empty_package)).2.
Proof.
  intros ops1 ops2. split; [discriminate |].
  apply (get_hash_ignores_build_order test_env ops1 ops2 empty_package
           empty_package); reflexivity.
Defined.

(** ** Dumping and loading a snapshot *)

(** [json_dump] is the encoder run on the dictionary [encode_node] gives. *)
Lemma json_dump_encode_node (E : Env) (n : Node) :
  json_dump E n = dump_value (json_dump E) (PDict (encode_node E n)).
Proof.
  assert (∀ m : Metadata,
            map (λ kv, (kv.1, dump_atom kv.2)) m
            = map (λ kv, (kv.1, dump_value (json_dump E) (atom_val kv.2))) m)
    as Hmeta.
  { intros m. apply map_ext. by intros [k [v |]]. }
  destruct n as [cs | hs f m | hs m]; simpl; unfold dump_metadata;
    rewrite ?map_map; simpl; by rewrite ?Hmeta.
Qed.

































(** With a child under the key of the discriminator the same round trip
    stands or falls with the decoder: it raises under one that refuses an
    object that does not spell a node, and returns the tree under one
    that leaves such an object alone. *)
Lemma round_trip_depends_on_decoder :
  let tree := GroupNode [("type", GroupNode [])] in
  json_load test_env (json_dump test_env tree) = Raise ValueError
  ∧ json_load lenient_env (json_dump lenient_env tree) = Ok (PNode tree).
Proof. split; reflexivity. Qed.

(** * Further properties of the methods *)

(** ** [__getitem__] at any depth *)

Lemma node_at_app (pre post : list string) (n : Node) :
  node_at (pre ++ post) n = node_at pre n ≫= node_at post.
Proof.
  revert n. induction pre as [| k pre IH]; intros n; simpl; [done |].
  destruct n as [cs | |]; [| done..].
  destruct (dict_get k cs) as [child |]; simpl; [apply IH | done].
Qed.

Lemma walk_ok_iff (E : Env) (parts rest : list string) (node : Node)
    (count : nat) (n : Node) :
  walk E parts node count rest = Ok n
  ↔ Forall (λ p, is_nodename E p = true) rest ∧ node_at rest node = Some n.
Proof.
  revert node count. induction rest as [| part rest IH]; intros node count.
  - simpl. split; [intros [= ->]; by split | by intros [_ [= ->]]].
  - simpl. destruct (is_nodename E part) eqn:Hname; simpl.
    + destruct node as [cs | |].
      * destruct (dict_get part cs) as [child |]; simpl.
        -- rewrite IH, Forall_cons.
           split; [intros [? ?] | intros [[_ ?] ?]]; by split_and!.
        -- destruct (parts !! count); split; try done; by intros [_ ?].
      * split; [done | by intros [_ ?]].
      * split; [done | by intros [_ ?]].
    + split; [done |]. intros [Hall _]. inversion Hall; congruence.
Qed.

(** Walking over a prefix that resolves. *)
Lemma walk_prefix (E : Env) (parts pre rest : list string) (node0 node : Node)
    (count : nat) :
  Forall (λ p, is_nodename E p = true) pre →
  node_at pre node0 = Some node →
  walk E parts node0 count (pre ++ rest)
  = walk E parts node (count + length pre) rest.
Proof.
  revert node0 count. induction pre as [| k pre IH]; intros node0 count Hall;
    simpl.
  - intros [= ->]. by rewrite Nat.add_0_r.
  - inversion Hall as [| ? ? Hk Hpre]; subst. rewrite Hk. simpl.
    destruct node0 as [cs | |]; [| done..].
    destruct (dict_get k cs) as [child |]; simpl; [| done].
    intros Hnode. rewrite (IH child (S count) Hpre Hnode). f_equal. lia.
Qed.

Lemma walk_raises (E : Env) (parts pre rest : list string) (node : Node)
    (e : exn) :
  parts = (pre ++ rest)%list →
  walk E parts node (length pre) rest = Raise e →
  class_of e = CTypeError ∨ class_of e = CKeyError.
Proof.
  revert pre node. induction rest as [| part rest IH]; intros pre node Hparts;
    simpl; [done |].
  destruct (is_nodename E part); simpl; [| intros [= <-]; by left].
  destruct node as [cs | |]; [| intros [= <-]; by left..].
  destruct (dict_get part cs) as [child |].
  - intros Hw. apply (IH (pre ++ [part])%list child).
    + by rewrite <- app_assoc.
    + by rewrite length_app, Nat.add_1_r.
  - subst parts. rewrite list_lookup_middle by done. intros [= <-]. by right.
Qed.

Lemma getitem_state (E : Env) (item : string) (s : State) :
  (__getitem__ E item s).1 = s.
Proof.
  unfold __getitem__. unfold_monad.
  destruct (String.eqb item ""); [done |].
  by destruct (negb (String.eqb (posix_anchor item) "")).
Qed.

(** X1: [__getitem__] returns a node exactly when the item is not blank,
    has no anchor, every part of its path is a node name, and following
    the parts down from the root arrives at that node. *)
Theorem getitem_returns_iff (E : Env) (item : string) (s : State) (n : Node) :
  __getitem__ E item s = (s, Ok n)
  ↔ item ≠ "" ∧ posix_anchor item = ""
    ∧ Forall (λ p, is_nodename E p = true) (posix_parts item)
    ∧ node_at (posix_parts item) (_contents (self s)) = Some n.
Proof.
  unfold __getitem__. unfold_monad.
  destruct (String.eqb item "") eqn:Hitem.
  { apply String.eqb_eq in Hitem. split; [done | by intros [? _]]. }
  apply String.eqb_neq in Hitem.
  destruct (String.eqb (posix_anchor item) "") eqn:Hanchor; simpl.
  - apply String.eqb_eq in Hanchor. split.
    + intros [= Hw]. apply walk_ok_iff in Hw as [? ?]. by split_and!.
    + intros (_ & _ & Hall & Hnode). f_equal. apply walk_ok_iff. by split.
  - apply String.eqb_neq in Hanchor. split; [done | by intros (_ & ? & _)].
Qed.

Lemma getitem_relative (E : Env) (item : string) (s : State) :
  item ≠ "" → posix_anchor item = "" →
  __getitem__ E item s
  = (s, walk E (posix_parts item) (_contents (self s)) 0 (posix_parts item)).
Proof.
  intros Hitem Hanchor. unfold __getitem__. unfold_monad.
  apply String.eqb_neq in Hitem. by rewrite Hitem, Hanchor.
Qed.



(** X3: at any depth, when the parts before [p] are node names that lead
    to a table or a file and [p] is a node name, [__getitem__] raises the
    not-a-group [TypeError] naming the traversed prefix. *)
Theorem getitem_through_leaf (E : Env) (item : string) (s : State)
    (pre post : list string) (p : string) (node : Node) :
  item ≠ "" → posix_anchor item = "" →
  posix_parts item = (pre ++ p :: post)%list →
  Forall (λ q, is_nodename E q = true) pre → is_nodename E p = true →
  node_at pre (_contents (self s)) = Some node →
  (∀ cs, node ≠ GroupNode cs) →
  __getitem__ E item s
  = (s, Raise (TypeError
                 ("Not a GroupNode: Node at " ++ repr E (join_with "/" pre)))).
Proof.
  intros Hitem Hanchor Hparts Hpre Hp Hnode Hleaf.
  rewrite getitem_relative by done. f_equal. rewrite Hparts at 2.
  rewrite (walk_prefix E _ pre _ _ _ 0 Hpre Hnode). simpl.
  rewrite Hp. simpl. rewrite Hparts, take_app_length.
  destruct node as [cs | |]; [by destruct (Hleaf cs) | done..].
Qed.

Lemma getitem_through_leaf_witness :
  let s := with_contents
             (GroupNode [("a", GroupNode [("t", TableNode ["h"] "PARQUET" [])])])
             empty_package in
  __getitem__ test_env "a/t/x/y" s
  = (s, Raise (TypeError "Not a GroupNode: Node at 'a/t'")).
Proof.
  intros s.
  apply (getitem_through_leaf test_env "a/t/x/y" s ["a"; "t"] ["y"] "x"
           (TableNode ["h"] "PARQUET" [])); try reflexivity; try discriminate.
  repeat constructor.
Defined.

(** X4: [__contains__] never raises and never changes the state: it
    answers [True] exactly when [__getitem__] returns a node, and [False]
    for every blank, absolute, ill-named or unresolved item. *)
Theorem contains_is_total (E : Env) (item : string) (s : State) :
  ∃ b : bool,
    __contains__ E item s = (s, Ok b)
    ∧ (b = true ↔ ∃ n, __getitem__ E item s = (s, Ok n)).
Proof.
  unfold __contains__.
  pose proof (getitem_state E item s) as Hstate.
  destruct (__getitem__ E item s) as [s' [n | e]] eqn:Hget; simpl in Hstate;
    subst s'.
  - exists true. split; [done |]. split; [eauto | done].
  - assert (class_of e = CTypeError ∨ class_of e = CKeyError) as Hclass.
    { revert Hget. unfold __getitem__. unfold_monad.
      destruct (String.eqb item ""); [intros [= <-]; by left |].
      destruct (negb (String.eqb (posix_anchor item) ""));
        [intros [= <-]; by left |].
      intros [= Hw]. by apply (walk_raises E _ [] _ _ _ eq_refl Hw). }
    exists false. split.
    + destruct e; simpl in Hclass; try done; by destruct Hclass.
    + split; [done | by intros [n [=]]].
Qed.

(** ** What the save operations insert is what [__getitem__] finds *)

Lemma join_with_head (sep : string) (c : ascii) (x : string)
    (r : list string) :
  ∃ t, join_with sep (String c x :: r) = String c t.
Proof. destruct r as [| y r]; simpl; eauto. Qed.

Lemma join_with_cons (sep x y : string) (r : list string) :
  join_with sep (x :: y :: r) = x ++ sep ++ join_with sep (y :: r).
Proof. reflexivity. Qed.

Lemma split_on_join (ch : ascii) (segs : list string) :
  segs ≠ [] → Forall (λ x, no_char ch x = true) segs →
  split_on ch (join_with (String ch "") segs) = segs.
Proof.
  induction segs as [| x [| y r] IH]; intros Hne Hall; [done | |].
  - inversion Hall; subst. simpl. by apply split_on_no_char.
  - inversion Hall as [| ? ? Hx Hr]; subst. rewrite join_with_cons.
    change (x ++ String ch "" ++ join_with (String ch "") (y :: r))
      with (x ++ String ch (join_with (String ch "") (y :: r))).
    rewrite split_on_app by done. f_equal. by apply IH.
Qed.

Lemma replace_slash_dot_join (segs : list string) :
  Forall (λ x, no_char slash x = true) segs →
  replace_slash_dot (join_with "/" segs) = join_with "." segs.
Proof.
  induction segs as [| x [| y r] IH]; intros Hall; [done | |].
  - inversion Hall; subst. simpl. by apply replace_slash_dot_no_slash.
  - inversion Hall as [| ? ? Hx Hr]; subst. rewrite !join_with_cons.
    rewrite !replace_slash_dot_app, replace_slash_dot_no_slash by done.
    by rewrite IH.
Qed.

Lemma clean_segment_inv (x : string) :
  clean_segment x = true →
  (∃ c x', x = String c x' ∧ Ascii.eqb c slash = false)
  ∧ is_segment x = true ∧ no_char slash x = true ∧ no_char dot x = true.
Proof.
  unfold clean_segment, plain_segment.
  intros [[Hseg Hslash]%andb_prop Hdot]%andb_prop. split_and!; try done.
  destruct x as [| c x']; [done |]. exists c, x'. split; [done |].
  simpl in Hslash. apply andb_prop in Hslash as [Hc _].
  by apply negb_true_iff in Hc.
Qed.

(** A name made of clean segments: both readings of it give the segments. *)
Lemma clean_name (segs : list string) :
  segs ≠ [] → Forall (λ x, clean_segment x = true) segs →
  let name := join_with "/" segs in
  name ≠ "" ∧ posix_anchor name = "" ∧ posix_parts name = segs
  ∧ split_on dot (build_name name) = segs.
Proof.
  intros Hne Hall name.
  assert (Forall (λ x, no_char slash x = true) segs) as Hslash.
  { eapply Forall_impl; [exact Hall |]. intros x Hx.
    by apply clean_segment_inv in Hx as (_ & _ & ? & _). }
  assert (Forall (λ x, no_char dot x = true) segs) as Hdot.
  { eapply Forall_impl; [exact Hall |]. intros x Hx.
    by apply clean_segment_inv in Hx as (_ & _ & _ & ?). }
  assert (∃ c t, name = String c t ∧ Ascii.eqb c slash = false)
    as (c & t & Hname & Hc).
  { destruct segs as [| x r]; [done |]. inversion Hall as [| ? ? Hx _]; subst.
    apply clean_segment_inv in Hx as ((c & x' & -> & Hc) & _).
    destruct (join_with_head "/" c x' r) as [t Ht]. by exists c, t. }
  assert (posix_anchor name = "") as Hanchor.
  { unfold posix_anchor. rewrite Hname. simpl. by rewrite Hc. }
  split_and!.
  - by rewrite Hname.
  - done.
  - unfold posix_parts. rewrite Hanchor. simpl. unfold name.
    rewrite (split_on_join slash) by done.
    clear -Hall. induction Hall as [| x segs Hx _ IH]; [done |]. simpl.
    apply clean_segment_inv in Hx as (_ & -> & _). by rewrite IH.
  - unfold build_name.
    assert (lstrip_slash name = name) as ->.
    { rewrite Hname. simpl. by rewrite Hc. }
    unfold name. rewrite replace_slash_dot_join by done.
    by apply (split_on_join dot).
Qed.

(** X5: a file saved under a name of clean segments that are node names is
    found again: after [save_file] returns, [__getitem__] on the same name
    returns the file node with the digest of the source and the metadata of
    the call. *)
Theorem saved_file_is_found (E : Env) (s s' : State) (srcfile : string)
    (segs : list string) (path : option string) (bytes : string) :
  segs ≠ [] →
  Forall (λ x, clean_segment x = true) segs →
  Forall (λ x, is_nodename E x = true) segs →
  TargetType_of E "file" = Some FILE →
  files (world s) !! srcfile = Some bytes →
  save_file E srcfile (join_with "/" segs) path s = (s', Ok tt) →
  __getitem__ E (join_with "/" segs) s'
  = (s', Ok (FileNode [digest E bytes]
               [("q_ext", Some ""); ("q_path", path);
                ("q_target", Some "file")])).
Proof.
  intros Hne Hclean Hnames Hfile Hsrc.
  destruct (clean_name segs Hne Hclean) as (Hname & Hanchor & Hparts & Hsplit).
  rewrite (save_file_unfold E _ _ _ _ _ Hsrc). unfold mbind, M_bind.
  destruct (_add_to_contents E (build_name (join_with "/" segs))
              [digest E bytes] "" path "file" None s)
    as [s1 [[] | e]] eqn:Hadd; [| done].
  intros Hcommit.
  apply add_to_contents_node_at in Hadd as (node & Hnode & Hat).
  unfold new_node in Hnode. rewrite Hfile in Hnode.
  injection Hnode as <-.
  pose proof (keeps_self_commit_object srcfile (digest E bytes) s1) as Hself.
  rewrite Hcommit in Hself. simpl in Hself.
  apply getitem_returns_iff. rewrite Hparts, Hself. rewrite Hsplit in Hat.
  by split_and!.
Qed.

Lemma saved_file_is_found_witness :
  let s' := (save_file test_env "a.txt" "reports/q1/a" None empty_package).1 in
  __getitem__ test_env "reports/q1/a" s'
  = (s', Ok (FileNode ["sha256:alpha"]
               [("q_ext", Some ""); ("q_path", None);
                ("q_target", Some "file")])).
Proof.
  intros s'.
  apply (saved_file_is_found test_env empty_package s' "a.txt"
           ["reports"; "q1"; "a"] None "alpha");
    try reflexivity; try discriminate; repeat constructor.
Defined.

(** X6: [save_group] does not merge: when it returns, the node at the
    name is an empty group, whatever was stored there before. *)
Theorem save_group_replaces (E : Env) (s s' : State) (name : string) :
  TargetType_of E "group" = Some GROUP →
  build_name name ≠ "" →
  save_group E name s = (s', Ok tt) →
  node_at (split_on dot (build_name name)) (_contents (self s'))
  = Some (GroupNode []).
Proof.
  intros Hgroup Hname. unfold save_group.
  apply String.eqb_neq in Hname. rewrite Hname. simpl.
  intros (node & Hnode & Hat)%add_to_contents_node_at.
  unfold new_node in Hnode. rewrite Hgroup in Hnode. by injection Hnode as <-.
Qed.

Lemma save_group_replaces_witness :
  let s := (save_file test_env "a.txt" "reports/a" None empty_package).1 in
  node_at ["reports"; "a"] (_contents (self s)) ≠ None
  ∧ node_at ["reports"]
      (_contents (self (save_group test_env "reports" s).1))
    = Some (GroupNode []).
Proof.
  intros s. split; [discriminate |].
  apply (save_group_replaces test_env s (save_group test_env "reports" s).1
           "reports"); [reflexivity | discriminate | reflexivity].
Defined.

(** ** What a failed insertion leaves behind *)

Lemma descend_reaches (ipath : list string) (leaf : string) (mk : result Node)
    (ptr : Node) :
  traversable ipath ptr = true →
  is_Some (node_at ipath (descend ipath leaf mk ptr).1).
Proof.
  revert ptr. induction ipath as [| name ipath IH]; intros ptr; simpl.
  - eauto.
  - destruct ptr as [cs | |]; [| done..]. intros Ht. specialize (IH _ Ht).
    destruct (descend ipath leaf mk (default (GroupNode []) (dict_get name cs)))
      as [child' r]. simpl in *. by rewrite dict_get_set_eq.
Qed.

(** X8: a failed insertion is not undone.  When the target is not
    recognized and no table or file is in the way, [_add_to_contents]
    raises the unrecognized-target error, and the groups on the way to the
    leaf, missing ones included, exist in the tree afterwards. *)
Theorem failed_insertion_keeps_new_groups (E : Env) (s : State)
    (fullname : string) (hashes : list string) (ext : string)
    (path : option string) (target : string) (fmt : option PackageFormat) :
  TargetType_of E target = None →
  traversable (pop_last (split_on dot fullname)).1 (_contents (self s))
  = true →
  let out := _add_to_contents E fullname hashes ext path target fmt s in
  out.2 = Raise (PackageException ("Unrecognized target " ++ target))
  ∧ is_Some (node_at (pop_last (split_on dot fullname)).1
               (_contents (self out.1))).
Proof.
  intros Htarget Htrav. unfold _add_to_contents. unfold_monad.
  destruct (pop_last (split_on dot fullname)) as [ipath leaf]. simpl in *.
  unfold new_node. rewrite Htarget.
  pose proof (descend_raise ipath leaf
                (PackageException ("Unrecognized target " ++ target))
                _ Htrav) as Hr.
  pose proof (descend_reaches ipath leaf
                (Raise (PackageException ("Unrecognized target " ++ target)))
                _ Htrav) as Hn.
  by destruct (descend ipath leaf _ (_contents (self s))) as [c r];
    simpl in *; subst r.
Qed.

Lemma failed_insertion_keeps_new_groups_witness :
  let out := _add_to_contents test_env "a.b.c" [] "" None "bogus" None
               empty_package in
  node_at ["a"; "b"] (_contents (self empty_package)) = None
  ∧ out.2 = Raise (PackageException "Unrecognized target bogus")
  ∧ is_Some (node_at ["a"; "b"] (_contents (self out.1))).
Proof.
  intros out. split; [reflexivity |].
  apply (failed_insertion_keeps_new_groups test_env empty_package "a.b.c" []
           "" None "bogus" None); reflexivity.
Defined.

(** X9: [save_package_tree] with a name splits it at the slashes only.
    When it returns, the grafted node sits at the segments of the name,
    and a segment with a dot is one key. *)
Theorem grafted_tree_is_at_its_name (s s' : State) (name : string)
    (pkgnode : Node) :
  name ≠ "" →
  save_package_tree name pkgnode s = (s', Ok tt) →
  node_at (split_on slash name) (_contents (self s')) = Some pkgnode
  ∧ Forall (λ k, no_char slash k = true) (split_on slash name).
Proof.
  intros Hname. unfold save_package_tree. unfold_monad.
  apply String.eqb_neq in Hname. rewrite Hname. cbn [negb].
  pose proof (pop_last_app (split_on slash name) (split_on_not_nil _ _))
    as Hpop.
  destruct (pop_last (split_on slash name)) as [ipath leaf]. simpl in Hpop.
  destruct (descend ipath leaf (Ok pkgnode) (_contents (self s)))
    as [c r] eqn:Hd.
  intros [= <- ->]. simpl. split; [| apply split_on_keys_no_sep].
  rewrite <- Hpop. by eapply descend_node_at.
Qed.

Lemma grafted_tree_is_at_its_name_witness :
  node_at ["data"; "v1.0"]
    (_contents
       (self (save_package_tree "data/v1.0" (FileNode ["h"] [])
                empty_package).1))
  = Some (FileNode ["h"] []).
Proof.
  apply (grafted_tree_is_at_its_name empty_package
           (save_package_tree "data/v1.0" (FileNode ["h"] []) empty_package).1
           "data/v1.0" (FileNode ["h"] []));
    [discriminate | reflexivity].
Defined.

(** ** Reading back *)

(** X10: a file node is read through exactly one object.  With every hash
    present in the store and a hash list that is not a single hash,
    [get_obj] raises the assertion of [file] and returns no path. *)
Theorem get_obj_file_needs_one_hash (E : Env) (s : State)
    (hashes : list string) (metadata : Metadata) :
  (∀ h, h ∈ hashes → is_Some (objects (world s) !! h)) →
  length hashes ≠ 1 →
  get_obj E (FileNode hashes metadata) s
  = (s, Raise (AssertionError "File objects must be contained in one file.")).
Proof.
  intros Hall Hlen. unfold get_obj.
  erewrite bind_ok by by apply check_hashes_present.
  by destruct hashes as [| h [| h' hashes]].
Qed.

Lemma get_obj_file_needs_one_hash_witness :
  let s := with_world stored_world empty_package in
  get_obj test_env (FileNode ["h1"; "h2"] []) s
  = (s, Raise (AssertionError "File objects must be contained in one file.")).
Proof.
  intros s. apply (get_obj_file_needs_one_hash test_env s ["h1"; "h2"] []).
  - intros h Hh. apply list_elem_of_In in Hh. simpl in Hh.
    destruct Hh as [<- | [<- | []]]; vm_compute; eauto.
  - discriminate.
Defined.

(** X11: after [save_contents] has returned, [_load_contents] without a
    hash reads the tag and loads the snapshot that was just written: it
    does what [_load_contents] does at the hash of the contents, which is
    to load the dump of the contents. *)
Theorem latest_loads_saved_snapshot (E : Env) (s : State)
    (cd : gmap string (option json)) :
  contents_dir (world s) = Some cd →
  interrupt_after (world s) = None →
  let s1 := (save_contents E s).1 in
  _load_contents E None s1
  = _load_contents E (Some (hash_contents E (_contents (self s)))) s1
  ∧ _load_contents E None s1 = (s1, json_load E (json_dump E (_contents (self s)))).
Proof.
  intros Hcd Hi s1.
  destruct (save_contents_outcome E s cd Hcd) as [Hself Hout].
  rewrite Hi in Hout. destruct Hout as (_ & Hc & Ht). fold s1 in Hself, Hc, Ht.
  unfold _load_contents, read_tag, read_contents. unfold_monad. simpl.
  rewrite Ht, Hc. simpl. by rewrite !lookup_insert_eq.
Qed.

Lemma latest_loads_saved_snapshot_witness :
  let s := (save_file test_env "a.txt" "reports/a" None empty_package).1 in
  (_load_contents test_env None (save_contents test_env s).1).2
  = json_load test_env (json_dump test_env (_contents (self s))).
Proof.
  intros s.
  destruct (latest_loads_saved_snapshot test_env s ∅ eq_refl eq_refl)
    as [_ Hload].
  by rewrite Hload.
Defined.

(** X12: [save_contents] writes one snapshot and one tag and nothing else.
    However it ends, the package object, the source files, the object
    store, the temporary area, every snapshot under another hash and
    every tag other than "latest" are as they were. *)
Theorem save_contents_frame (E : Env) (s : State) :
  let s' := (save_contents E s).1 in
  self s' = self s
  ∧ files (world s') = files (world s)
  ∧ objects (world s') = objects (world s)
  ∧ tmp_objects (world s') = tmp_objects (world s)
  ∧ (∀ h, h ≠ hash_contents E (_contents (self s)) →
       read_contents h (world s') = read_contents h (world s))
  ∧ (∀ t, t ≠ LATEST → read_tag t (world s') = read_tag t (world s)).
Proof.
  destruct s as [p w]. simpl.
  unfold save_contents, get_hash, open_contents_file, write_contents_file,
    tags_isdir, tags_mkdir, open_tag_file, write_tag_file, effect,
    read_contents, read_tag.
  unfold_monad. simpl.
  destruct (contents_dir w) as [cd |] eqn:Hcd;
    [| simpl; rewrite ?Hcd; by split_and!].
  destruct (tags_dir w) as [td |] eqn:Htd;
    destruct (interrupt_after w) as [[| [| [| [| [| n]]]]] |] eqn:Hi;
    repeat (simpl; rewrite ?Hi, ?Htd, ?Hcd).
  all: try (rewrite bool_decide_true by eauto).
  all: try (rewrite bool_decide_false by (by intros [? ?])).
  all: repeat (simpl; rewrite ?Hi, ?Htd, ?Hcd).
  all: split_and!; try done.
  all: intros k Hk; simpl; by rewrite ?lookup_insert_ne, ?lookup_empty.
Qed.

(** X13: [save_contents] opens the snapshot file for writing even when it
    exists.  When the tag already reads the hash of the contents and the
    call is interrupted between opening the file and writing it, the
    snapshot the tag points at is left without its document, and
    [_load_contents] on the latest tag raises. *)
Theorem interrupted_resave_loses_snapshot (E : Env) (s : State)
    (cd : gmap string (option json)) :
  contents_dir (world s) = Some cd →
  read_tag LATEST (world s) = Some (hash_contents E (_contents (self s))) →
  interrupt_after (world s) = Some 1 →
  let out := save_contents E s in
  out.2 = Raise KeyboardInterrupt
  ∧ read_contents (hash_contents E (_contents (self s))) (world out.1)
    = Some None
  ∧ (_load_contents E None out.1).2 = Raise ValueError.
Proof.
  intros Hcd Htag Hi out.
  destruct (save_contents_outcome E s cd Hcd) as [Hself Hout].
  rewrite Hi in Hout. destruct Hout as (Hr & Hc & Ht). fold out in Hself, Hc, Ht, Hr.
  split_and!; [done | |].
  - unfold read_contents. rewrite Hc. simpl. by rewrite lookup_insert_eq.
  - unfold _load_contents, read_contents. unfold_monad. simpl.
    unfold read_tag in *. rewrite Ht, Htag, Hc. simpl.
    by rewrite lookup_insert_eq.
Qed.

Lemma interrupted_resave_loses_snapshot_witness :
  let s := with_world resave_world empty_package in
  (_load_contents test_env None s).2 = Ok (PNode (GroupNode []))
  ∧ (save_contents test_env s).2 = Raise KeyboardInterrupt
  ∧ (_load_contents test_env None (save_contents test_env s).1).2 = Raise ValueError.
Proof.
  intros s. split; [reflexivity |].
  destruct (interrupted_resave_loses_snapshot test_env s
              {[ sha256_hexdigest test_env (canonical (GroupNode []))
                 := Some (json_dump test_env (GroupNode [])) ]}
              eq_refl eq_refl eq_refl) as (Hr & _ & Hload).
  split; [exact Hr | exact Hload].
Defined.

(** ** The object store under [save_file] *)

(** Whatever happens to the commit, an object of the store is either as
    it was or the complete new object. *)
Lemma commit_object_objects (srcfile h : string) (s : State) (h' : string) :
  objects (world (commit_object srcfile h s).1) !! h'
  = objects (world s) !! h'
  ∨ (∃ bytes, files (world s) !! srcfile = Some bytes ∧ h' = h
              ∧ objects (world (commit_object srcfile h s).1) !! h'
                = Some bytes).
Proof.
  unfold commit_object. erewrite bind_ok by apply object_exists_eq.
  case_bool_decide as Hh; simpl; [by left |].
  destruct s as [p w]. unfold copyfile, move, effect. unfold_monad. simpl.
  destruct (files w !! srcfile) as [bytes |] eqn:Hsrc; [| by left].
  destruct (store_writable w) eqn:Hw; simpl; [| by left].
  destruct (interrupt_after w) as [[| [| [| n]]] |] eqn:Hi;
    repeat (simpl; rewrite ?Hi, ?Hw, ?lookup_insert_eq); try by left.
  all: destruct (decide (h' = h)) as [-> | Hne];
    [right; exists bytes; by rewrite lookup_insert_eq
    | left; by rewrite lookup_insert_ne].
Qed.

(** X14: [save_file] never leaves a partial object in the store.  At
    whatever point the build is interrupted or the write fails, every
    object of the store is either what it was before the call or, under
    the digest of the source, the complete source. *)
Theorem save_file_store_is_atomic (E : Env) (s : State)
    (srcfile name : string) (path : option string) (h' : string) :
  let s' := (save_file E srcfile name path s).1 in
  objects (world s') !! h' = objects (world s) !! h'
  ∨ (∃ bytes, files (world s) !! srcfile = Some bytes
              ∧ h' = digest E bytes
              ∧ objects (world s') !! h' = Some bytes).
Proof.
  simpl. destruct (files (world s) !! srcfile) as [bytes |] eqn:Hsrc.
  - rewrite (save_file_unfold E _ _ _ _ _ Hsrc). unfold mbind, M_bind.
    pose proof (add_to_contents_world E (build_name name) [digest E bytes] ""
                  path "file" None s) as Hworld.
    destruct (_add_to_contents E (build_name name) [digest E bytes] "" path
                "file" None s) as [s1 [[] | e]]; simpl in *.
    + destruct (commit_object_objects srcfile (digest E bytes) s1 h')
        as [Hsame | (bytes' & Hsrc' & -> & Hnew)].
      * left. by rewrite Hsame, Hworld.
      * right. exists bytes. rewrite Hworld, Hsrc in Hsrc'.
        injection Hsrc' as <-. by split_and!.
    + left. by rewrite Hworld.
  - left. unfold save_file, digest_file. unfold_monad. simpl. by rewrite Hsrc.
Qed.

Lemma save_file_store_is_atomic_witness :
  let s := with_world copy_interrupted_world empty_package in
  let s' := (save_file test_env "a.txt" "a" None s).1 in
  (save_file test_env "a.txt" "a" None s).2 = Raise KeyboardInterrupt
  ∧ tmp_objects (world s') !! "sha256:alpha" = Some ""
  ∧ objects (world s') !! "sha256:alpha" = None.
Proof.
  intros s s'. split_and!; [reflexivity | reflexivity |].
  destruct (save_file_store_is_atomic test_env s "a.txt" "a" None
              "sha256:alpha") as [Hsame | (bytes & _ & _ & Hnew)].
  - exact Hsame.
  - exfalso. vm_compute in Hnew. discriminate.
Defined.

Lemma refs_stored_group (objs : gmap string string)
    (cs : list (string * Node)) :
  refs_stored objs (GroupNode cs) = true
  ↔ ∀ kv, kv ∈ cs → refs_stored objs kv.2 = true.
Proof.
  simpl. rewrite forallb_forall. split; intros Hall kv Hkv; apply Hall;
    by apply list_elem_of_In.
Qed.

Lemma refs_stored_mono (objs objs' : gmap string string) (n : Node) :
  (∀ h, is_Some (objs !! h) → is_Some (objs' !! h)) →
  refs_stored objs n = true → refs_stored objs' n = true.
Proof.
  intros Hsub.
  assert (∀ hs, forallb (λ h, bool_decide (is_Some (objs !! h))) hs = true →
                forallb (λ h, bool_decide (is_Some (objs' !! h))) hs = true)
    as Hhs.
  { intros hs. rewrite !forallb_forall. intros Hall h Hh.
    specialize (Hall h Hh). apply bool_decide_eq_true in Hall.
    apply bool_decide_eq_true. auto. }
  induction n as [cs IH | hs f m | hs m] using Node_ind'; [| apply Hhs..].
  rewrite !refs_stored_group. rewrite Forall_forall in IH.
  intros Hall kv Hkv. apply IH; auto.
Qed.

Lemma descend_refs_stored (objs : gmap string string) (ipath : list string)
    (leaf : string) (mk : result Node) (ptr : Node) :
  refs_stored objs ptr = true →
  (∀ n, mk = Ok n → refs_stored objs n = true) →
  refs_stored objs (descend ipath leaf mk ptr).1 = true.
Proof.
  intros Hptr Hmk. revert ptr Hptr.
  induction ipath as [| name ipath IH]; intros ptr Hptr; simpl.
  - destruct mk as [node | e]; [| done].
    destruct ptr as [cs | |]; [| done..]. simpl.
    apply refs_stored_group. rewrite refs_stored_group in Hptr.
    intros kv [-> | Hin]%dict_set_elem; [by apply Hmk | by apply Hptr].
  - destruct ptr as [cs | |]; [| done..].
    assert (refs_stored objs (default (GroupNode []) (dict_get name cs)) = true)
      as Hchild.
    { destruct (dict_get name cs) as [n |] eqn:Hn; [| done].
      rewrite refs_stored_group in Hptr.
      by apply (Hptr (name, n)), dict_get_elem. }
    specialize (IH _ Hchild).
    destruct (descend ipath leaf mk (default (GroupNode []) (dict_get name cs)))
      as [child' r]. simpl in IH |- *.
    apply refs_stored_group. rewrite refs_stored_group in Hptr.
    intros kv [-> | Hin]%dict_set_elem; [done | by apply Hptr].
Qed.

(** X15: [save_file] that returns leaves no dangling reference.  When
    every hash named in the tree had its object in the store before the
    call and the call returns, every hash named in the tree, the new file
    node included, has its object in the store after it. *)
Theorem save_file_keeps_refs_stored (E : Env) (s s' : State)
    (srcfile name : string) (path : option string) :
  refs_stored (objects (world s)) (_contents (self s)) = true →
  save_file E srcfile name path s = (s', Ok tt) →
  refs_stored (objects (world s')) (_contents (self s')) = true.
Proof.
  intros Hrefs. destruct (files (world s) !! srcfile) as [bytes |] eqn:Hsrc.
  2:{ unfold save_file, digest_file. unfold_monad. simpl. by rewrite Hsrc. }
  rewrite (save_file_unfold E _ _ _ _ _ Hsrc). unfold mbind, M_bind.
  pose proof (add_to_contents_world E (build_name name) [digest E bytes] ""
                path "file" None s) as Hworld.
  destruct (_add_to_contents E (build_name name) [digest E bytes] "" path
              "file" None s) as [s1 [[] | e]] eqn:Hadd; [| done].
  simpl in Hworld. intros Hcommit.
  pose proof (commit_object_ok _ _ _ _ Hcommit) as Hh.
  pose proof (keeps_self_commit_object srcfile (digest E bytes) s1) as Hself.
  rewrite Hcommit in Hself. simpl in Hself. rewrite Hself.
  assert (∀ h, is_Some (objects (world s) !! h) →
               is_Some (objects (world s') !! h)) as Hsub.
  { intros h Hsome.
    destruct (commit_object_objects srcfile (digest E bytes) s1 h)
      as [Hsame | (b & _ & _ & Hnew)]; rewrite Hcommit in *; simpl in *.
    - by rewrite Hsame, Hworld.
    - by rewrite Hnew. }
  revert Hadd. unfold _add_to_contents. unfold_monad.
  destruct (pop_last (split_on dot (build_name name))) as [ipath leaf].
  pose proof (descend_refs_stored (objects (world s')) ipath leaf
    (new_node E [digest E bytes]
       [("q_ext", Some ""); ("q_path", path); ("q_target", Some "file")]
       "file" None) (_contents (self s))
    (refs_stored_mono _ _ _ Hsub Hrefs)) as Hd.
  destruct (descend ipath leaf _ (_contents (self s))) as [c r].
  intros [= <- ->]. simpl in *. apply Hd.
  intros n. unfold new_node.
  destruct (TargetType_of E "file") as [[| |] |]; try done.
  - intros [= <-]. simpl. rewrite andb_true_r. by apply bool_decide_eq_true.
  - by intros [= <-].
Qed.

Lemma save_file_keeps_refs_stored_witness :
  let s1 := (save_file test_env "a.txt" "reports/a" None empty_package).1 in
  let s2 := (save_file test_env "b.txt" "reports/b" None s1).1 in
  refs_stored (objects (world s2)) (_contents (self s2)) = true.
Proof.
  intros s1 s2.
  apply (save_file_keeps_refs_stored test_env s1 s2 "b.txt" "reports/b" None);
    reflexivity.
Defined.

(** ** The choice of the Parquet library *)

(** X16: the environment is consulted once.  After [get_parquet_lib] has
    returned a library, it returns the same library whatever the variable
    [QUILT_PARQUET_LIBRARY] is changed to, an invalid value included, and
    the state stays as it is. *)
Theorem parquet_choice_is_cached (c c' : ParquetChoice.ClassState)
    (lib : ParquetLib) (v : option string) :
  ParquetChoice.get_parquet_lib c = (c', Ok lib) →
  ParquetChoice.get_parquet_lib (ParquetChoice.setenv v c')
  = (ParquetChoice.setenv v c', Ok lib).
Proof.
  unfold ParquetChoice.get_parquet_lib.
  destruct c as [[cached |] env]; simpl.
  - by intros [= <- ->].
  - destruct (ParquetChoice.of_value _) as [l | e]; [| done].
    by intros [= <- ->].
Qed.

Lemma parquet_choice_is_cached_witness :
  let c := ParquetChoice.mkClassState None None in
  ParquetChoice.get_parquet_lib c
  = (ParquetChoice.mkClassState (Some ARROW) None, Ok ARROW)
  ∧ ParquetChoice.get_parquet_lib
      (ParquetChoice.setenv (Some "pyspark")
         (ParquetChoice.mkClassState (Some ARROW) None))
    = (ParquetChoice.mkClassState (Some ARROW) (Some "pyspark"), Ok ARROW).
Proof.
  intros c. split; [reflexivity |].
  apply (parquet_choice_is_cached c
           (ParquetChoice.mkClassState (Some ARROW) None) ARROW
           (Some "pyspark")).
  reflexivity.
Defined.

(** X17: [set_parquet_lib] overrides the environment and
    [reset_parquet_lib] gives it back its say.  After a set with the value
    of a library, [get_parquet_lib] returns that library whatever the
    variable holds; a set with any other string raises [ValueError] and
    keeps the earlier choice; after a reset, [get_parquet_lib] decides
    from the variable alone, with pyarrow when it is not set. *)
Theorem parquet_set_and_reset (c : ParquetChoice.ClassState) :
  (∀ lib v,
     (ParquetChoice.get_parquet_lib
        (ParquetChoice.setenv v
           (ParquetChoice.set_parquet_lib (ParquetChoice.value lib) c).1)).2
     = Ok lib)
  ∧ (∀ parqlib,
       parqlib ≠ "pyspark" → parqlib ≠ "pyarrow" →
       ParquetChoice.set_parquet_lib parqlib c = (c, Raise ValueError))
  ∧ (ParquetChoice.get_parquet_lib (ParquetChoice.reset_parquet_lib c).1).2
    = ParquetChoice.of_value
        (default "pyarrow" (ParquetChoice.QUILT_PARQUET_LIBRARY c)).
Proof.
  split_and!.
  - by intros [].
  - intros parqlib Hspark Harrow. unfold ParquetChoice.set_parquet_lib,
      ParquetChoice.of_value.
    apply String.eqb_neq in Hspark, Harrow. by rewrite Hspark, Harrow.
  - unfold ParquetChoice.get_parquet_lib. simpl.
    by destruct (ParquetChoice.of_value _).
Qed.

Lemma parquet_set_and_reset_witness :
  ParquetChoice.set_parquet_lib "fastparquet"
    (ParquetChoice.mkClassState (Some SPARK) None)
  = (ParquetChoice.mkClassState (Some SPARK) None, Raise ValueError).
Proof.
  apply (proj1 (proj2 (parquet_set_and_reset
                         (ParquetChoice.mkClassState (Some SPARK) None))));
    discriminate.
Defined.
